(** * Token streaming in the chat front end: a shallow embedding

    The development follows the two copies of [frontend/src/services/api.ts]
    that the repository carries:

    - the copy with a line buffer, a [processLine] helper and a
      [try]/[finally] around the read loop ([Module Buffered]);
    - the copy that decodes every chunk on its own ([Module Plain]).

    Both share the WebSocket client and the request construction.

    JavaScript strings are sequences of UTF-16 code units; a code unit is a
    natural number.  The text handed to the line splitter is the output of
    [TextDecoder.decode]: a chunk, here, is the decoded text of one
    [reader.read()] result.  With [{stream: true}] the decoder keeps an
    unfinished byte sequence for the next call, so the decoded chunks of a
    body cut at any bytes concatenate to its decoded text.

    [JSON.parse] and [JSON.stringify] are platform functions: the clients
    take them as parameters, and [JSON.parse] / [JSON.stringify] below are
    reference implementations used to evaluate the clients on concrete
    inputs.

    An async generator is unfolded against the environment it runs in (the
    response and what its body delivers) into a resumption: the effects it
    performs, the values it yields, and what it does when its consumer goes
    on or leaves at a yield. *)

From Stdlib Require Import List NArith ZArith String Ascii Bool Lia.
Import ListNotations.

Set Warnings "-register-all".

(* ------------------------------------------------------------------ *)
(** * JavaScript strings *)

Module JS.

Definition code_unit := N.
Definition jsstring := list code_unit.

(** A string literal of the source, as code units. *)
Definition lit (s : string) : jsstring :=
  map N_of_ascii (list_ascii_of_string s).

(** The same for a text that holds double quotes, written with ['] in
    their place. *)
Definition txt (s : string) : jsstring :=
  map (fun c => if N.eqb c 39 then 34%N else c) (lit s).

(** [a === b] on strings. *)
Fixpoint eqb (a b : jsstring) : bool :=
  match a, b with
  | [], [] => true
  | x :: a', y :: b' => N.eqb x y && eqb a' b'
  | _, _ => false
  end.

Definition LF : code_unit := 10%N.

(** [s.split('\n')]: the segments between line feeds; never empty. *)
Fixpoint split (s : jsstring) : list jsstring :=
  match s with
  | [] => [[]]
  | c :: r =>
      if N.eqb c LF then [] :: split r
      else match split r with
           | [] => [[c]]
           | l :: ls => (c :: l) :: ls
           end
  end.

(** ECMAScript WhiteSpace and LineTerminator code points, the set that
    [String.prototype.trim] strips. *)
Definition isWhiteSpace (c : code_unit) : bool :=
  (N.leb 9 c && N.leb c 13) || N.eqb c 32 || N.eqb c 160 || N.eqb c 5760
  || (N.leb 8192 c && N.leb c 8202) || N.eqb c 8232 || N.eqb c 8233
  || N.eqb c 8239 || N.eqb c 8287 || N.eqb c 12288 || N.eqb c 65279.

Fixpoint trimStart (s : jsstring) : jsstring :=
  match s with
  | [] => []
  | c :: r => if isWhiteSpace c then trimStart r else s
  end.

Fixpoint trimEnd (s : jsstring) : jsstring :=
  match s with
  | [] => []
  | c :: r =>
      match trimEnd r with
      | [] => if isWhiteSpace c then [] else [c]
      | r' => c :: r'
      end
  end.

(** [s.trim()]. *)
Definition trim (s : jsstring) : jsstring := trimStart (trimEnd s).

(** [s.startsWith(p)]. *)
Fixpoint startsWith (s p : jsstring) {struct p} : bool :=
  match p, s with
  | [], _ => true
  | x :: p', y :: s' => N.eqb x y && startsWith s' p'
  | _ :: _, [] => false
  end.

(** [s.slice(n)] for a non-negative [n]. *)
Definition slice (n : nat) (s : jsstring) : jsstring := skipn n s.

(** Truthiness of a string: the empty string is the only falsy one. *)
Definition nonempty (s : jsstring) : bool :=
  match s with [] => false | _ :: _ => true end.

(** [lines.pop() || ''] and what [pop] leaves in [lines]. *)
Definition pop_or_empty (lines : list jsstring) : jsstring := last lines [].
Definition popped (lines : list jsstring) : list jsstring := removelast lines.

End JS.

Import JS.

(* ------------------------------------------------------------------ *)
(** * JSON values *)

Module JSON.

(** A number as its exact decimal: (-1)^neg * mant * 10^exp10.  Rounding to
    a double is not modelled, except for the test against zero. *)
Record decimal := Decimal { dneg : bool; dmant : N; dexp : Z }.

Inductive json :=
| JNull
| JBool (b : bool)
| JNumber (d : decimal)
| JString (s : jsstring)
| JArray (xs : list json)
| JObject (fields : list (jsstring * json)).

(** A JavaScript value as far as the clients see one: [undefined] or a
    value of the JSON shape. *)
Definition jsvalue := option json.
Definition undefined : jsvalue := None.

(** The double nearest to the decimal is (+/-)0: the mantissa is zero, or
    the magnitude is at most 2^-1075, half the least subnormal. *)
Definition rounds_to_zero (d : decimal) : bool :=
  N.eqb (dmant d) 0
  || (Z.ltb (dexp d) 0
      && Z.leb (Z.of_N (dmant d) * 2 ^ 1075) (10 ^ (- dexp d))).

(** ToBoolean. *)
Definition ToBoolean (v : json) : bool :=
  match v with
  | JNull => false
  | JBool b => b
  | JNumber d => negb (rounds_to_zero d)
  | JString s => nonempty s
  | JArray _ => true
  | JObject _ => true
  end.

(** [a || b]. *)
Definition or_else (a : jsvalue) (b : json) : json :=
  match a with
  | Some x => if ToBoolean x then x else b
  | None => b
  end.

(** Property read [v.key]: [null.key] throws a TypeError; a primitive or an
    array has no property of the names used here; an object gives its last
    binding of the key, or [undefined]. *)
Inductive access := TypeError | Read (v : jsvalue).

Fixpoint lookup (key : jsstring) (fields : list (jsstring * json)) : jsvalue :=
  match fields with
  | [] => None
  | (k, v) :: rest =>
      match lookup key rest with
      | Some w => Some w
      | None => if JS.eqb k key then Some v else None
      end
  end.

Definition get (v : json) (key : jsstring) : access :=
  match v with
  | JNull => TypeError
  | JObject fields => Read (lookup key fields)
  | _ => Read undefined
  end.

(** [x === 'literal'] for a value read from a parsed message. *)
Definition is_string (x : jsvalue) (s : jsstring) : bool :=
  match x with
  | Some (JString t) => JS.eqb t s
  | _ => false
  end.

(** ** Reference [JSON.parse] (ECMA-404 grammar) *)

Definition is_json_ws (c : code_unit) : bool :=
  N.eqb c 32 || N.eqb c 9 || N.eqb c 10 || N.eqb c 13.

Fixpoint skip_ws (s : jsstring) : jsstring :=
  match s with
  | c :: r => if is_json_ws c then skip_ws r else s
  | [] => []
  end.

Definition digit_of (c : code_unit) : option N :=
  if N.leb 48 c && N.leb c 57 then Some (c - 48)%N else None.

Definition hex_of (c : code_unit) : option N :=
  if N.leb 48 c && N.leb c 57 then Some (c - 48)%N
  else if N.leb 65 c && N.leb c 70 then Some (c - 55)%N
  else if N.leb 97 c && N.leb c 102 then Some (c - 87)%N
  else None.

(** The digits at the head of [s], and what follows them. *)
Fixpoint take_digits (s : jsstring) : list N * jsstring :=
  match s with
  | c :: r =>
      match digit_of c with
      | Some d => let (ds, rest) := take_digits r in (d :: ds, rest)
      | None => ([], s)
      end
  | [] => ([], [])
  end.

Definition N_of_digits (ds : list N) : N :=
  fold_left (fun acc d => (acc * 10 + d)%N) ds 0%N.

Definition parse_exponent (s : jsstring) : option (Z * jsstring) :=
  match s with
  | c :: r =>
      if N.eqb c 101 || N.eqb c 69 then
        let (sign, r1) :=
          match r with
          | x :: r' =>
              if N.eqb x 45 then (true, r')
              else if N.eqb x 43 then (false, r') else (false, r)
          | [] => (false, r)
          end in
        match take_digits r1 with
        | ([], _) => None
        | (ds, rest) =>
            let e := Z.of_N (N_of_digits ds) in
            Some (if sign then (- e)%Z else e, rest)
        end
      else Some (0%Z, s)
  | [] => Some (0%Z, [])
  end.

Definition parse_fraction (s : jsstring) : option (list N * jsstring) :=
  match s with
  | c :: r =>
      if N.eqb c 46 then
        match take_digits r with
        | ([], _) => None
        | (ds, rest) => Some (ds, rest)
        end
      else Some ([], s)
  | [] => Some ([], [])
  end.

Definition parse_number (s : jsstring) : option (decimal * jsstring) :=
  let (neg, s1) :=
    match s with
    | c :: r => if N.eqb c 45 then (true, r) else (false, s)
    | [] => (false, s)
    end in
  let int_part :=
    match s1 with
    | c :: r =>
        if N.eqb c 48 then Some ([0%N], r)
        else match take_digits s1 with
             | ([], _) => None
             | (ds, rest) => Some (ds, rest)
             end
    | [] => None
    end in
  match int_part with
  | None => None
  | Some (ids, s2) =>
      match parse_fraction s2 with
      | None => None
      | Some (fds, s3) =>
          match parse_exponent s3 with
          | None => None
          | Some (e, s4) =>
              Some (Decimal neg (N_of_digits (ids ++ fds))
                            (e - Z.of_nat (List.length fds)), s4)
          end
      end
  end.

(** The characters of a string after its opening quote, up to the closing
    one, with escapes resolved. *)
Fixpoint parse_chars (s : jsstring) : option (jsstring * jsstring) :=
  match s with
  | [] => None
  | c :: r =>
      if N.eqb c 34 then Some ([], r)
      else if N.eqb c 92 then
        match r with
        | [] => None
        | e :: r1 =>
            if N.eqb e 117 then
              match r1 with
              | h1 :: h2 :: h3 :: h4 :: r2 =>
                  match hex_of h1, hex_of h2, hex_of h3, hex_of h4 with
                  | Some a, Some b, Some c', Some d =>
                      match parse_chars r2 with
                      | Some (cs, rest) =>
                          Some ((((a * 16 + b) * 16 + c') * 16 + d)%N :: cs, rest)
                      | None => None
                      end
                  | _, _, _, _ => None
                  end
              | _ => None
              end
            else
              let simple :=
                if N.eqb e 34 then Some 34%N
                else if N.eqb e 92 then Some 92%N
                else if N.eqb e 47 then Some 47%N
                else if N.eqb e 98 then Some 8%N
                else if N.eqb e 102 then Some 12%N
                else if N.eqb e 110 then Some 10%N
                else if N.eqb e 114 then Some 13%N
                else if N.eqb e 116 then Some 9%N
                else None in
              match simple with
              | Some x =>
                  match parse_chars r1 with
                  | Some (cs, rest) => Some (x :: cs, rest)
                  | None => None
                  end
              | None => None
              end
        end
      else if N.ltb c 32 then None
      else match parse_chars r with
           | Some (cs, rest) => Some (c :: cs, rest)
           | None => None
           end
  end.

Definition expect (word : jsstring) (v : json) (s : jsstring)
  : option (json * jsstring) :=
  if startsWith s word then Some (v, skipn (List.length word) s) else None.

Fixpoint parse_value (fuel : nat) (s : jsstring) {struct fuel}
  : option (json * jsstring) :=
  match fuel with
  | O => None
  | S fuel' =>
      match skip_ws s with
      | [] => None
      | c :: r =>
          if N.eqb c 123 then
            match skip_ws r with
            | x :: r' =>
                if N.eqb x 125 then Some (JObject [], r')
                else match parse_members fuel' (x :: r') with
                     | Some (fs, rest) => Some (JObject fs, rest)
                     | None => None
                     end
            | [] => None
            end
          else if N.eqb c 91 then
            match skip_ws r with
            | x :: r' =>
                if N.eqb x 93 then Some (JArray [], r')
                else match parse_elements fuel' (x :: r') with
                     | Some (vs, rest) => Some (JArray vs, rest)
                     | None => None
                     end
            | [] => None
            end
          else if N.eqb c 34 then
            match parse_chars r with
            | Some (str, rest) => Some (JString str, rest)
            | None => None
            end
          else if N.eqb c 116 then expect (lit "true") (JBool true) (c :: r)
          else if N.eqb c 102 then expect (lit "false") (JBool false) (c :: r)
          else if N.eqb c 110 then expect (lit "null") JNull (c :: r)
          else match parse_number (c :: r) with
               | Some (d, rest) => Some (JNumber d, rest)
               | None => None
               end
      end
  end

with parse_elements (fuel : nat) (s : jsstring) {struct fuel}
  : option (list json * jsstring) :=
  match fuel with
  | O => None
  | S fuel' =>
      match parse_value fuel' s with
      | None => None
      | Some (v, r) =>
          match skip_ws r with
          | x :: r' =>
              if N.eqb x 44 then
                match parse_elements fuel' r' with
                | Some (vs, rest) => Some (v :: vs, rest)
                | None => None
                end
              else if N.eqb x 93 then Some ([v], r')
              else None
          | [] => None
          end
      end
  end

with parse_members (fuel : nat) (s : jsstring) {struct fuel}
  : option (list (jsstring * json) * jsstring) :=
  match fuel with
  | O => None
  | S fuel' =>
      match skip_ws s with
      | q :: r0 =>
          if N.eqb q 34 then
            match parse_chars r0 with
            | None => None
            | Some (key, r1) =>
                match skip_ws r1 with
                | colon :: r2 =>
                    if N.eqb colon 58 then
                      match parse_value fuel' r2 with
                      | None => None
                      | Some (v, r3) =>
                          match skip_ws r3 with
                          | x :: r4 =>
                              if N.eqb x 44 then
                                match parse_members fuel' r4 with
                                | Some (fs, rest) => Some ((key, v) :: fs, rest)
                                | None => None
                                end
                              else if N.eqb x 125 then Some ([(key, v)], r4)
                              else None
                          | [] => None
                          end
                      end
                    else None
                | [] => None
                end
            end
          else None
      | [] => None
      end
  end.

(** [JSON.parse(text)]: [None] stands for the SyntaxError it throws.  Every
    nested call consumes a character first, so twice the length of the text
    is fuel enough. *)
Definition parse (text : jsstring) : option json :=
  match parse_value (2 * List.length text + 2) text with
  | Some (v, rest) =>
      match skip_ws rest with
      | [] => Some v
      | _ :: _ => None
      end
  | None => None
  end.

(** ** Reference [JSON.stringify] *)

Fixpoint uint_units (u : Decimal.uint) : jsstring :=
  match u with
  | Decimal.Nil => []
  | Decimal.D0 r => 48%N :: uint_units r
  | Decimal.D1 r => 49%N :: uint_units r
  | Decimal.D2 r => 50%N :: uint_units r
  | Decimal.D3 r => 51%N :: uint_units r
  | Decimal.D4 r => 52%N :: uint_units r
  | Decimal.D5 r => 53%N :: uint_units r
  | Decimal.D6 r => 54%N :: uint_units r
  | Decimal.D7 r => 55%N :: uint_units r
  | Decimal.D8 r => 56%N :: uint_units r
  | Decimal.D9 r => 57%N :: uint_units r
  end.

Definition digits (n : N) : jsstring := uint_units (N.to_uint n).

(** The significant digits of a positive mantissa and the count of the
    trailing zeros dropped from it. *)
Fixpoint strip_zeros (fuel : nat) (m : N) (dropped : Z) : N * Z :=
  match fuel with
  | O => (m, dropped)
  | S fuel' =>
      if N.eqb (m mod 10) 0 && negb (N.eqb m 0)
      then strip_zeros fuel' (m / 10) (dropped + 1)
      else (m, dropped)
  end.

Definition zeros (n : Z) : jsstring := repeat 48%N (Z.to_nat n).

(** Number::toString on the digits of the decimal (the shortest digits of
    the double, for a decimal that is the shortest form of one). *)
Definition number_text (d : decimal) : jsstring :=
  if rounds_to_zero d then [48%N]
  else
    let (m, z) := strip_zeros (List.length (digits (dmant d))) (dmant d) 0 in
    let ds := digits m in
    let k := Z.of_nat (List.length ds) in
    let n := (k + dexp d + z)%Z in
    let body :=
      if Z.leb k n && Z.leb n 21 then ds ++ zeros (n - k)
      else if Z.ltb 0 n && Z.leb n 21
      then firstn (Z.to_nat n) ds ++ [46%N] ++ skipn (Z.to_nat n) ds
      else if Z.ltb (-6) n && Z.leb n 0
      then [48%N; 46%N] ++ zeros (- n) ++ ds
      else
        let e := (n - 1)%Z in
        let etext :=
          [101%N; if Z.ltb e 0 then 45%N else 43%N] ++ digits (Z.to_N (Z.abs e)) in
        match ds with
        | [] => []
        | [x] => x :: etext
        | x :: more => x :: 46%N :: more ++ etext
        end in
    (if dneg d then [45%N] else []) ++ body.

Definition hex_digit (n : N) : code_unit :=
  if N.ltb n 10 then (48 + n)%N else (87 + n)%N.

Definition unicode_escape (c : code_unit) : jsstring :=
  [92%N; 117%N; hex_digit (c / 4096 mod 16); hex_digit (c / 256 mod 16);
   hex_digit (c / 16 mod 16); hex_digit (c mod 16)].

Definition is_high_surrogate (c : code_unit) : bool :=
  N.leb 55296 c && N.leb c 56319.
Definition is_low_surrogate (c : code_unit) : bool :=
  N.leb 56320 c && N.leb c 57343.

(** QuoteJSONString without the enclosing quotes. *)
Fixpoint quote_units (s : jsstring) : jsstring :=
  match s with
  | [] => []
  | c :: r =>
      if N.eqb c 34 then 92%N :: 34%N :: quote_units r
      else if N.eqb c 92 then 92%N :: 92%N :: quote_units r
      else if N.eqb c 8 then 92%N :: 98%N :: quote_units r
      else if N.eqb c 12 then 92%N :: 102%N :: quote_units r
      else if N.eqb c 10 then 92%N :: 110%N :: quote_units r
      else if N.eqb c 13 then 92%N :: 114%N :: quote_units r
      else if N.eqb c 9 then 92%N :: 116%N :: quote_units r
      else if N.ltb c 32 then unicode_escape c ++ quote_units r
      else if is_high_surrogate c then
        match r with
        | l :: r' =>
            if is_low_surrogate l then c :: l :: quote_units r'
            else unicode_escape c ++ quote_units r
        | [] => unicode_escape c
        end
      else if is_low_surrogate c then unicode_escape c ++ quote_units r
      else c :: quote_units r
  end.

Definition quote (s : jsstring) : jsstring := 34%N :: quote_units s ++ [34%N].

Fixpoint stringify (v : json) : jsstring :=
  match v with
  | JNull => lit "null"
  | JBool true => lit "true"
  | JBool false => lit "false"
  | JNumber d => number_text d
  | JString s => quote s
  | JArray xs =>
      let fix elements (l : list json) : jsstring :=
        match l with
        | [] => []
        | x :: l' =>
            match l' with
            | [] => stringify x
            | _ :: _ => stringify x ++ 44%N :: elements l'
            end
        end in
      91%N :: elements xs ++ [93%N]
  | JObject fs =>
      let fix members (l : list (jsstring * json)) : jsstring :=
        match l with
        | [] => []
        | (k, x) :: l' =>
            match l' with
            | [] => quote k ++ 58%N :: stringify x
            | _ :: _ => quote k ++ 58%N :: stringify x ++ 44%N :: members l'
            end
        end in
      123%N :: members fs ++ [125%N]
  end.

End JSON.

Import JSON.


(* ------------------------------------------------------------------ *)
(** * Errors, effects and async generators *)

Module Gen.

(** The [Error] values the clients construct, and a rejection coming from
    the transport ([fetch] or [reader.read()]). *)
Inductive error :=
| HttpError (status : N)           (* `HTTP error! status: ${response.status}` *)
| BodyNotReadable                  (* 'Response body is not readable' *)
| NotConnected                     (* the Error of sendWebSocketMessage *)
| TransportError (reason : jsstring).

Inductive outcome (A : Type) :=
| Returns (a : A)
| Throws (e : error).
Arguments Returns {A} a.
Arguments Throws {A} e.

Inductive endpoint := CHAT | CHAT_STREAM.

(** What a client does to the outside world between two suspensions. *)
Inductive effect :=
| Fetch (target : endpoint) (body : jsstring)   (* POST with this body *)
| GetReader                                     (* response.body.getReader() *)
| ReleaseLock                                   (* reader.releaseLock() *)
| ConsoleWarn (data : jsstring).                (* console.warn(..., data, e) *)

(** How the run of a generator body ends: it reaches its end or a [return]
    statement, its consumer abandons it with [return()], or it throws. *)
Inductive completion :=
| Completed
| Abandoned
| Threw (e : error).

(** A generator body unfolded against a given environment: a resumption.
    At a [Yield] the generator is suspended; [resume] is what [next()]
    runs, [abandon] what [return()] runs (the enclosing [finally] blocks). *)
Inductive gen :=
| Done (c : completion)
| Do (e : effect) (k : gen)
| Yield (v : json) (resume : gen) (abandon : gen).

(** [yield v] outside any [try]/[finally]. *)
Definition yield (v : json) (k : gen) : gen := Yield v k (Done Abandoned).

Fixpoint do_all (es : list effect) (k : gen) : gen :=
  match es with
  | [] => k
  | e :: es' => Do e (do_all es' k)
  end.

(** [try { body } finally { cleanup }] where nothing follows the statement:
    the cleanup runs when the body completes, throws, or is abandoned at one
    of its yields. *)
Fixpoint try_finally (body : gen) (cleanup : effect) : gen :=
  match body with
  | Done c => Do cleanup (Done c)
  | Do e k => Do e (try_finally k cleanup)
  | Yield v k a => Yield v (try_finally k cleanup) (try_finally a cleanup)
  end.

(** ** Observing a generator *)

Inductive event :=
| Effect (e : effect)
| Yielded (v : json).

(** The consumer: a [for await] loop that runs to the end, or one that
    leaves ([break], [return] or an exception in its body) on receiving the
    value number [n], counted from 0, which calls [return()]. *)
Inductive consumer :=
| Drain
| BreakAt (n : nat).

Fixpoint drain (g : gen) : list event * completion :=
  match g with
  | Done c => ([], c)
  | Do e k => let (t, c) := drain k in (Effect e :: t, c)
  | Yield v k _ => let (t, c) := drain k in (Yielded v :: t, c)
  end.

Fixpoint break_at (n : nat) (g : gen) : list event * completion :=
  match g with
  | Done c => ([], c)
  | Do e k => let (t, c) := break_at n k in (Effect e :: t, c)
  | Yield v k a =>
      match n with
      | O => let (t, c) := drain a in (Yielded v :: t, c)
      | S m => let (t, c) := break_at m k in (Yielded v :: t, c)
      end
  end.

Definition run (c : consumer) (g : gen) : list event * completion :=
  match c with
  | Drain => drain g
  | BreakAt n => break_at n g
  end.

(** One call of [next()]: the effects performed, the iterator result, and
    the generator afterwards.  A finished generator is [Done Completed]: a
    further [next()] runs no code and reports completion. *)
Inductive iter_result :=
| Value (v : json)
| Finished (c : completion).

Fixpoint next (g : gen) : list effect * iter_result * gen :=
  match g with
  | Done c => ([], Finished c, Done Completed)
  | Do e k => let '(es, r, g') := next k in (e :: es, r, g')
  | Yield v k _ => ([], Value v, k)
  end.

(** ** Projections of a trace *)

Definition yields (t : list event) : list json :=
  flat_map (fun ev => match ev with Yielded v => [v] | _ => [] end) t.

Definition is_release (ev : event) : bool :=
  match ev with Effect ReleaseLock => true | _ => false end.
Definition is_acquire (ev : event) : bool :=
  match ev with Effect GetReader => true | _ => false end.

(** The body of a generator leaves the reader lock alone: none of its
    effects, on any of its paths, acquires or releases it. *)
Definition touches_lock (e : effect) : bool :=
  match e with
  | GetReader | ReleaseLock => true
  | Fetch _ _ | ConsoleWarn _ => false
  end.

Fixpoint lock_free (g : gen) : bool :=
  match g with
  | Done _ => true
  | Do e k => negb (touches_lock e) && lock_free k
  | Yield _ k a => lock_free k && lock_free a
  end.

Definition releases (t : list event) : nat := List.length (filter is_release t).
Definition acquisitions (t : list event) : nat := List.length (filter is_acquire t).

(** A trace that ends with the one release of the lock. *)
Definition released_once_at_end (t : list event) : Prop :=
  exists pre, t = pre ++ [Effect ReleaseLock]
              /\ releases pre = 0 /\ acquisitions pre = 0.

(** The values yielded one after the other, then [k]. *)
Definition yield_all (vs : list json) (k : gen) : gen :=
  fold_right yield k vs.

End Gen.

Import Gen.

(* ------------------------------------------------------------------ *)
(** * The HTTP side: requests and responses *)

Module Http.

(** The body of a response as its reader delivers it: each [Chunk] is one
    [{done: false, value}] (already decoded), [EndOfBody] is [{done: true}],
    [Broken] is a rejected [read()]. *)
Inductive body :=
| EndOfBody
| Broken (reason : jsstring)
| Chunk (value : jsstring) (rest : body).

Fixpoint body_of (chunks : list jsstring) (ending : body) : body :=
  match chunks with
  | [] => ending
  | c :: cs => Chunk c (body_of cs ending)
  end.

(** [response.json()] is the field [json]; [body = None] is a response
    whose [body] is [null]. *)
Record response := Response {
  ok : bool;
  status : N;
  body_stream : option body;
  json_body : outcome json
}.

Inductive fetched :=
| Rejected (reason : jsstring)
| Resolved (r : response).

Record chat_message := ChatMessage { role : jsstring; content : jsstring }.

(** [options: {maxTokens?, temperature?, topP?} = {}]. *)
Record options := Options {
  maxTokens : jsvalue;
  temperature : jsvalue;
  topP : jsvalue
}.

Definition no_options : options := Options undefined undefined undefined.

Definition message_json (m : chat_message) : json :=
  JObject [(lit "role", JString (role m)); (lit "content", JString (content m))].

Definition number (mant : N) (exp10 : Z) : json :=
  JNumber (Decimal false mant exp10).

(** The object literal handed to [JSON.stringify] by [sendMessage] and
    [sendMessageStream]. *)
Definition chat_request (messages : list chat_message) (o : options) : json :=
  JObject
    [(lit "messages", JArray (map message_json messages));
     (lit "max_tokens", or_else (maxTokens o) (number 1000 0));
     (lit "temperature", or_else (temperature o) (number 7 (-1)));
     (lit "top_p", or_else (topP o) (number 9 (-1)))].

Section Requests.

Variable JSON_stringify : json -> jsstring.

(** [ChatAPI.sendMessage], the same in both copies. *)
Definition sendMessage (messages : list chat_message) (o : options)
           (f : fetched) : list effect * outcome json :=
  ([Fetch CHAT (JSON_stringify (chat_request messages o))],
   match f with
   | Rejected reason => Throws (TransportError reason)
   | Resolved response =>
       if negb (ok response) then Throws (HttpError (status response))
       else json_body response
   end).

End Requests.

End Http.

Import Http.

(* ------------------------------------------------------------------ *)
(** * [ChatAPI.sendMessageStream] with a line buffer *)

Module Buffered.

Section Client.

Variable JSON_parse : jsstring -> option json.
Variable JSON_stringify : json -> jsstring.

(** [processLine(line)]: the diagnostics it logs and the value it returns
    ([JNull] for [null]). *)
Definition processLine (line : jsstring) : list effect * json :=
  let trimmedLine := trim line in
  if negb (nonempty trimmedLine) then ([], JNull)
  else if startsWith trimmedLine (lit "data: ") then
    let data := slice 6 trimmedLine in
    if JS.eqb data (lit "[DONE]") then ([], JNull)
    else match JSON_parse data with
         | Some parsed => ([], parsed)
         | None => ([ConsoleWarn data], JNull)
         end
  else ([], JNull).

(** [for (const line of lines) { const parsed = processLine(line);
    if (parsed) { yield parsed; } }], followed by [k]. *)
Fixpoint for_of (lines : list jsstring) (k : gen) : gen :=
  match lines with
  | [] => k
  | line :: rest =>
      let (log, parsed) := processLine line in
      do_all log
        (if ToBoolean parsed then yield parsed (for_of rest k)
         else for_of rest k)
  end.

(** The [done] branch of the loop: what is left in the buffer is decoded,
    then [break]. *)
Definition flush (buffer : jsstring) : gen :=
  if nonempty (trim buffer) then for_of (split buffer) (Done Completed)
  else Done Completed.

(** The [while (true)] loop, entered with the given [buffer]. *)
Fixpoint read_loop (buffer : jsstring) (b : body) : gen :=
  match b with
  | Broken reason => Done (Threw (TransportError reason))
  | EndOfBody => flush buffer
  | Chunk value rest =>
      let buffer := buffer ++ value in
      let lines := split buffer in
      let buffer := pop_or_empty lines in
      for_of (popped lines) (read_loop buffer rest)
  end.

Definition sendMessageStream (messages : list chat_message) (o : options)
           (f : fetched) : gen :=
  Do (Fetch CHAT_STREAM (JSON_stringify (chat_request messages o)))
     match f with
     | Rejected reason => Done (Threw (TransportError reason))
     | Resolved response =>
         if negb (ok response) then Done (Threw (HttpError (status response)))
         else match body_stream response with
              | None => Done (Threw BodyNotReadable)
              | Some b =>
                  Do GetReader (try_finally (read_loop [] b) ReleaseLock)
              end
     end.

End Client.

End Buffered.

(* ------------------------------------------------------------------ *)
(** * [ChatAPI.sendMessageStream] decoding chunk by chunk *)

Module Plain.

Section Client.

Variable JSON_parse : jsstring -> option json.
Variable JSON_stringify : json -> jsstring.

(** [for (const line of lines) { if (line.startsWith('data: ')) ... }],
    followed by [k]; the terminator executes [return]. *)
Fixpoint for_of (lines : list jsstring) (k : gen) : gen :=
  match lines with
  | [] => k
  | line :: rest =>
      if startsWith line (lit "data: ") then
        let data := slice 6 line in
        if JS.eqb data (lit "[DONE]") then Done Completed
        else match JSON_parse data with
             | Some parsed => yield parsed (for_of rest k)
             | None => for_of rest k
             end
      else for_of rest k
  end.

Fixpoint read_loop (b : body) : gen :=
  match b with
  | Broken reason => Done (Threw (TransportError reason))
  | EndOfBody => Done Completed
  | Chunk value rest => for_of (split value) (read_loop rest)
  end.

Definition sendMessageStream (messages : list chat_message) (o : options)
           (f : fetched) : gen :=
  Do (Fetch CHAT_STREAM (JSON_stringify (chat_request messages o)))
     match f with
     | Rejected reason => Done (Threw (TransportError reason))
     | Resolved response =>
         if negb (ok response) then Done (Threw (HttpError (status response)))
         else match body_stream response with
              | None => Done Completed
              | Some b => Do GetReader (read_loop b)
              end
     end.

End Client.

End Plain.

(* ------------------------------------------------------------------ *)
(** * The WebSocket client *)

Module WebSocket.

Inductive ready_state := CONNECTING | OPEN | CLOSING | CLOSED.

(** The socket as the client uses it: its state and the frames handed to
    [ws.send], oldest first. *)
Record websocket := Socket {
  readyState : ready_state;
  sent : list jsstring
}.

(** 'WebSocket' followed by U+8FDE U+63A5 U+9519 U+8BEF. *)
Definition connection_error_text : jsstring :=
  lit "WebSocket" ++ [36830%N; 25509%N; 38169%N; 35823%N].

(** What the handlers installed by [createWebSocketChat] do: calls of the
    three callbacks, and console output. *)
Inductive action :=
| CallOnMessage (token : jsvalue)
| CallOnComplete
| CallOnError (error : jsvalue)
| ConsoleLog
| ConsoleError.

Inductive socket_event :=
| OpenEvent
| MessageEvent (data : jsstring)
| ErrorEvent
| CloseEvent.

Section Client.

Variable JSON_parse : jsstring -> option json.
Variable JSON_stringify : json -> jsstring.

(** [ws.onmessage]: a parse failure or a property read on [null] lands in
    the [catch], which logs. *)
Definition onmessage (text : jsstring) : list action :=
  match JSON_parse text with
  | None => [ConsoleError]
  | Some data =>
      match get data (lit "type") with
      | TypeError => [ConsoleError]
      | Read type =>
          if is_string type (lit "token") then
            match get data (lit "token") with
            | TypeError => [ConsoleError]
            | Read token => [CallOnMessage token]
            end
          else if is_string type (lit "complete") then [CallOnComplete]
          else if is_string type (lit "error") then
            match get data (lit "error") with
            | TypeError => [ConsoleError]
            | Read error => [CallOnError error]
            end
          else []
      end
  end.

Definition onopen : list action := [ConsoleLog].

Definition onerror : list action :=
  [ConsoleError; CallOnError (Some (JString connection_error_text))].

Definition onclose : list action := [ConsoleLog].

(** [createWebSocketChat(onMessage, onComplete, onError)] installs the four
    handlers; an event of the socket runs the one installed for it.  The
    three callbacks are recorded as actions and taken to return normally. *)
Definition createWebSocketChat (ev : socket_event) : list action :=
  match ev with
  | OpenEvent => onopen
  | MessageEvent data => onmessage data
  | ErrorEvent => onerror
  | CloseEvent => onclose
  end.

(** The reaction of the client to the events of one connection, in order. *)
Definition dispatch (evs : list socket_event) : list action :=
  flat_map createWebSocketChat evs.

Definition chat_frame (messages : list chat_message) : json :=
  JObject [(lit "type", JString (lit "chat"));
           (lit "messages", JArray (map message_json messages))].

(** [sendWebSocketMessage(ws, messages)]: what the call returns or throws,
    and the socket afterwards. *)
Definition sendWebSocketMessage (ws : websocket)
           (messages : list chat_message) : outcome unit * websocket :=
  match readyState ws with
  | OPEN =>
      (Returns tt,
       Socket (readyState ws)
              (sent ws ++ [JSON_stringify (chat_frame messages)]))
  | _ => (Throws NotConnected, ws)
  end.

End Client.

End WebSocket.

(* ------------------------------------------------------------------ *)
(** * Streams on the wire *)

Module Wire.

Definition nl : jsstring := [LF].

(** A line of text, written with ['] for the double quote, followed by a
    line feed. *)
Definition line (s : string) : jsstring := txt s ++ nl.

Definition data_line (payload : jsstring) : jsstring :=
  lit "data: " ++ payload ++ nl.

(** [N] data lines followed by the terminator line. *)
Definition valid_stream (payloads : list jsstring) : jsstring :=
  flat_map data_line payloads ++ line "data: [DONE]".

Definition no_line_feed (s : jsstring) : bool :=
  forallb (fun c => negb (N.eqb c LF)) s.

(** The payload of a well-formed data line and the value it carries: the
    payload stays on its line, and what is left of it once the white space
    that ends the line is gone is a JSON text for a truthy value (an
    object, for one) other than the terminator. *)
Definition decodes (JSON_parse : jsstring -> option json)
           (payload : jsstring) (v : json) : Prop :=
  no_line_feed payload = true
  /\ nonempty (trimEnd payload) = true
  /\ JS.eqb (trimEnd payload) (lit "[DONE]") = false
  /\ JSON_parse (trimEnd payload) = Some v
  /\ ToBoolean v = true.

(** A response with a success status whose body arrives as [chunks] and
    then ends. *)
Definition streamed (chunks : list jsstring) : fetched :=
  Resolved (Response true 200 (Some (body_of chunks EndOfBody))
                     (Throws (TransportError (lit "body stream is locked")))).

End Wire.

Import Wire.

(* ------------------------------------------------------------------ *)
(** * Vocabulary for the behaviour of the clients *)

Module Behaviour.

(** A string made of white space only (the empty string included). *)
Definition blank (s : jsstring) : bool := forallb isWhiteSpace s.

(** Every value a generator can yield, on any of its paths, passes [P]. *)
Fixpoint all_yields (P : json -> bool) (g : gen) : bool :=
  match g with
  | Done _ => true
  | Do _ k => all_yields P k
  | Yield v k a => P v && all_yields P k && all_yields P a
  end.

(** The generator yields nothing more. *)
Fixpoint yield_free (g : gen) : bool :=
  match g with
  | Done _ => true
  | Do _ k => yield_free k
  | Yield _ _ _ => false
  end.

(** Once abandoned at a yield, the generator yields nothing more: what its
    [finally] blocks run is free of yields. *)
Fixpoint abandon_silent (g : gen) : bool :=
  match g with
  | Done _ => true
  | Do _ k => abandon_silent k
  | Yield _ k a => abandon_silent k && yield_free a
  end.

(** The payload of a data line as the chunk-by-chunk copy reads it: the
    line is not trimmed and the value need not be truthy. *)
Definition plain_decodes (JSON_parse : jsstring -> option json)
           (payload : jsstring) (v : json) : Prop :=
  no_line_feed payload = true
  /\ JS.eqb payload (lit "[DONE]") = false
  /\ JSON_parse payload = Some v.

(** The text of a chunk that holds whole data lines only. *)
Definition lines_chunk (payloads : list jsstring) : jsstring :=
  flat_map data_line payloads.

(** The callbacks among the actions of the WebSocket client. *)
Definition is_callback (a : WebSocket.action) : bool :=
  match a with
  | WebSocket.CallOnMessage _ | WebSocket.CallOnComplete
  | WebSocket.CallOnError _ => true
  | WebSocket.ConsoleLog | WebSocket.ConsoleError => false
  end.

Definition callbacks (l : list WebSocket.action) : list WebSocket.action :=
  filter is_callback l.

(** The events of the socket that can lead to a callback. *)
Definition carries_news (ev : WebSocket.socket_event) : bool :=
  match ev with
  | WebSocket.MessageEvent _ | WebSocket.ErrorEvent => true
  | WebSocket.OpenEvent | WebSocket.CloseEvent => false
  end.

(** Successive calls of [sendWebSocketMessage] on one socket: what each
    call returned or threw, and the socket after the last. *)
Fixpoint send_all (JSON_stringify : json -> jsstring)
         (ws : WebSocket.websocket) (calls : list (list chat_message))
  : list (outcome unit) * WebSocket.websocket :=
  match calls with
  | [] => ([], ws)
  | messages :: more =>
      let (r, ws') := WebSocket.sendWebSocketMessage JSON_stringify ws messages in
      let (rs, ws'') := send_all JSON_stringify ws' more in
      (r :: rs, ws'')
  end.

End Behaviour.

Import Behaviour.

(* ------------------------------------------------------------------ *)
(** * Lemmas on strings and lines *)

Section Lines.

Lemma split_not_nil (s : jsstring) : split s <> [].
Proof.
  induction s as [|c r IH]; simpl; [discriminate|].
  destruct (N.eqb c LF); [discriminate|].
  destruct (split r); discriminate.
Qed.

Lemma removelast_cons2 (A : Type) (a : A) (l : list A) :
  l <> [] -> removelast (a :: l) = a :: removelast l.
Proof. destruct l; [congruence | reflexivity]. Qed.

Lemma last_cons2 (A : Type) (a d : A) (l : list A) :
  l <> [] -> last (a :: l) d = last l d.
Proof. destruct l; [congruence | reflexivity]. Qed.

Lemma last_app_r (A : Type) (d : A) (l l' : list A) :
  l' <> [] -> last (l ++ l') d = last l' d.
Proof.
  intros H. induction l as [|a l IH]; [reflexivity|].
  simpl app. rewrite last_cons2; [exact IH|].
  destruct l; simpl; [assumption | discriminate].
Qed.

(** Splitting a concatenation: the complete lines of the first part, then
    the lines of its unfinished last segment continued by the second. *)
Lemma split_app (x y : jsstring) :
  split (x ++ y) = popped (split x) ++ split (pop_or_empty (split x) ++ y).
Proof.
  unfold popped, pop_or_empty.
  induction x as [|c x IH]; [reflexivity|].
  simpl app. simpl split.
  destruct (N.eqb c LF) eqn:Hc.
  - rewrite removelast_cons2, last_cons2 by apply split_not_nil.
    simpl. now rewrite IH.
  - rewrite IH. destruct (split x) as [|l0 [|l1 ls]] eqn:Hx.
    + now destruct (split_not_nil x).
    + simpl. rewrite Hc. reflexivity.
    + reflexivity.
Qed.

Lemma popped_app_two (l : list jsstring) (a b : jsstring) :
  popped (l ++ [a; b]) = l ++ [a].
Proof. unfold popped. now rewrite removelast_app. Qed.

Lemma pop_or_empty_app_two (l : list jsstring) (a b : jsstring) :
  pop_or_empty (l ++ [a; b]) = b.
Proof. unfold pop_or_empty. now rewrite last_app_r. Qed.

Lemma split_one_line (p : jsstring) :
  no_line_feed p = true -> split p = [p].
Proof.
  induction p as [|c p IH]; simpl; [reflexivity|].
  intros H. apply andb_prop in H. destruct H as [Hc Hp].
  apply negb_true_iff in Hc. rewrite Hc, (IH Hp). reflexivity.
Qed.

Lemma last_segment_one_line (s : jsstring) :
  no_line_feed (pop_or_empty (split s)) = true.
Proof.
  unfold pop_or_empty.
  induction s as [|c s IH]; [reflexivity|].
  simpl split. destruct (N.eqb c LF) eqn:Hc.
  - rewrite last_cons2 by apply split_not_nil. exact IH.
  - destruct (split s) as [|l0 [|l1 ls]] eqn:Hs.
    + now destruct (split_not_nil s).
    + simpl in *. now rewrite Hc, IH.
    + exact IH.
Qed.

Lemma split_line_then (p r : jsstring) :
  no_line_feed p = true -> split (p ++ LF :: r) = p :: split r.
Proof.
  induction p as [|c p IH]; simpl; [reflexivity|].
  intros H. apply andb_prop in H. destruct H as [Hc Hp].
  apply negb_true_iff in Hc. rewrite Hc, (IH Hp). reflexivity.
Qed.

Lemma no_line_feed_app (a b : jsstring) :
  no_line_feed (a ++ b) = no_line_feed a && no_line_feed b.
Proof. apply forallb_app. Qed.

Lemma trimEnd_app (a p : jsstring) :
  nonempty (trimEnd p) = true -> trimEnd (a ++ p) = a ++ trimEnd p.
Proof.
  intros H. induction a as [|c a IH]; [reflexivity|].
  simpl. rewrite IH.
  destruct (a ++ trimEnd p) eqn:E; [|reflexivity].
  apply app_eq_nil in E. destruct E as [_ E]. rewrite E in H. discriminate.
Qed.

End Lines.

(* ------------------------------------------------------------------ *)
(** * Lemmas on generators *)

Section Generators.

Lemma drain_do (e : effect) (k : gen) :
  drain (Do e k) = (Effect e :: fst (drain k), snd (drain k)).
Proof. simpl. now destruct (drain k). Qed.

Lemma drain_yield (v : json) (k a : gen) :
  drain (Yield v k a) = (Yielded v :: fst (drain k), snd (drain k)).
Proof. simpl. now destruct (drain k). Qed.

Lemma releases_app (t u : list event) :
  releases (t ++ u) = releases t + releases u.
Proof. unfold releases. now rewrite filter_app, length_app. Qed.

Lemma acquisitions_app (t u : list event) :
  acquisitions (t ++ u) = acquisitions t + acquisitions u.
Proof. unfold acquisitions. now rewrite filter_app, length_app. Qed.

Lemma released_once_cons (ev : event) (t : list event) :
  is_release ev = false -> is_acquire ev = false ->
  released_once_at_end t -> released_once_at_end (ev :: t).
Proof.
  intros Hr Ha (pre & -> & H1 & H2). exists (ev :: pre).
  unfold releases, acquisitions in *. simpl. rewrite Hr, Ha. auto.
Qed.

Lemma quiet_effect (e : effect) :
  touches_lock e = false ->
  is_release (Effect e) = false /\ is_acquire (Effect e) = false.
Proof. destruct e; simpl; intros; try discriminate; auto. Qed.

Lemma drain_try_finally (g : gen) :
  lock_free g = true ->
  released_once_at_end (fst (drain (try_finally g ReleaseLock))).
Proof.
  induction g as [c | e k IH | v k IHk a IHa]; simpl lock_free; intros H.
  - exists []. simpl. auto.
  - apply andb_prop in H. destruct H as [He Hk].
    apply negb_true_iff in He. destruct (quiet_effect _ He) as [Hr Ha].
    simpl try_finally. rewrite drain_do. simpl fst.
    apply released_once_cons; auto.
  - apply andb_prop in H. destruct H as [Hk Ha].
    simpl try_finally. rewrite drain_yield. simpl fst.
    apply released_once_cons; auto.
Qed.

Lemma break_at_try_finally (g : gen) :
  lock_free g = true ->
  forall n, released_once_at_end (fst (break_at n (try_finally g ReleaseLock))).
Proof.
  induction g as [c | e k IH | v k IHk a IHa]; simpl lock_free; intros H n.
  - exists []. simpl. auto.
  - apply andb_prop in H. destruct H as [He Hk].
    apply negb_true_iff in He. destruct (quiet_effect _ He) as [Hr Ha].
    simpl. specialize (IH Hk n).
    destruct (break_at n (try_finally k ReleaseLock)) as [t c]. simpl in *.
    apply released_once_cons; auto.
  - apply andb_prop in H. destruct H as [Hk Ha].
    simpl. destruct n as [|m].
    + pose proof (drain_try_finally a Ha) as Hd.
      destruct (drain (try_finally a ReleaseLock)) as [t c]. simpl in *.
      apply released_once_cons; auto.
    + specialize (IHk Hk m).
      destruct (break_at m (try_finally k ReleaseLock)) as [t c]. simpl in *.
      apply released_once_cons; auto.
Qed.

Lemma run_try_finally (g : gen) (c : consumer) :
  lock_free g = true ->
  released_once_at_end (fst (run c (try_finally g ReleaseLock))).
Proof.
  intros H. destruct c as [|n]; simpl.
  - now apply drain_try_finally.
  - now apply break_at_try_finally.
Qed.

Lemma drain_yield_all_finally (vs : list json) :
  drain (try_finally (yield_all vs (Done Completed)) ReleaseLock)
  = (map Yielded vs ++ [Effect ReleaseLock], Completed).
Proof.
  induction vs as [|v vs IH]; [reflexivity|].
  change (yield_all (v :: vs) (Done Completed))
    with (Yield v (yield_all vs (Done Completed)) (Done Abandoned)).
  cbn [try_finally]. rewrite drain_yield, IH. reflexivity.
Qed.

End Generators.

(* ------------------------------------------------------------------ *)
(** * Lemmas on the buffered client *)

Section BufferedFacts.

Variable JSON_parse : jsstring -> option json.

Local Abbreviation processLine := (Buffered.processLine JSON_parse).
Local Abbreviation for_of := (Buffered.for_of JSON_parse).
Local Abbreviation read_loop := (Buffered.read_loop JSON_parse).

Lemma for_of_app (l1 l2 : list jsstring) (k : gen) :
  for_of (l1 ++ l2) k = for_of l1 (for_of l2 k).
Proof.
  induction l1 as [|l l1 IH]; [reflexivity|].
  simpl. destruct (processLine l) as [log parsed]. now rewrite IH.
Qed.

(** The read loop over a body that arrives in chunks decodes, in order,
    the complete lines of the whole text, and is left with its last,
    unfinished segment as buffer. *)
Lemma read_loop_chunks (cs : list jsstring) (ending : body) :
  forall b, no_line_feed b = true ->
  read_loop b (body_of cs ending)
  = for_of (popped (split (b ++ List.concat cs)))
           (read_loop (pop_or_empty (split (b ++ List.concat cs))) ending).
Proof.
  induction cs as [|c cs IH]; intros b Hb.
  - simpl List.concat. rewrite app_nil_r, (split_one_line _ Hb). reflexivity.
  - simpl body_of. simpl List.concat. cbn [Buffered.read_loop].
    rewrite (IH _ (last_segment_one_line (b ++ c))).
    rewrite <- for_of_app. rewrite app_assoc.
    rewrite (split_app (b ++ c) (List.concat cs)).
    set (tail := split (pop_or_empty (split (b ++ c)) ++ List.concat cs)).
    assert (Ht : tail <> []) by apply split_not_nil.
    replace (popped (popped (split (b ++ c)) ++ tail))
      with (popped (split (b ++ c)) ++ popped tail)
      by (unfold popped; now rewrite removelast_app).
    replace (pop_or_empty (popped (split (b ++ c)) ++ tail))
      with (pop_or_empty tail)
      by (unfold pop_or_empty; now rewrite last_app_r).
    reflexivity.
Qed.

(** Two ways of cutting the same text into chunks give the same
    resumption, whatever the text and however the body ends. *)
Lemma chunking_irrelevant (cs1 cs2 : list jsstring) (ending : body) :
  List.concat cs1 = List.concat cs2 ->
  read_loop [] (body_of cs1 ending) = read_loop [] (body_of cs2 ending).
Proof.
  intros H. rewrite !read_loop_chunks by reflexivity. now rewrite H.
Qed.

Lemma lock_free_for_of (lines : list jsstring) (k : gen) :
  lock_free k = true -> lock_free (for_of lines k) = true.
Proof.
  intros Hk. induction lines as [|l lines IH]; [exact Hk|].
  simpl. unfold Buffered.processLine.
  destruct (negb (nonempty (trim l))); [exact IH|].
  destruct (startsWith (trim l) (lit "data: ")); [|exact IH].
  destruct (JS.eqb _ _); [exact IH|].
  destruct (JSON_parse _) as [parsed|]; simpl.
  - destruct (ToBoolean parsed); [|exact IH].
    simpl. now rewrite IH.
  - exact IH.
Qed.

Lemma lock_free_read_loop (b : body) :
  forall buffer, lock_free (read_loop buffer b) = true.
Proof.
  induction b as [| reason | value rest IH]; intros buffer; simpl.
  - unfold Buffered.flush. destruct (nonempty (trim buffer)); [|reflexivity].
    now apply lock_free_for_of.
  - reflexivity.
  - apply lock_free_for_of, IH.
Qed.

End BufferedFacts.

Section BufferedLines.

Variable JSON_parse : jsstring -> option json.

Local Abbreviation processLine := (Buffered.processLine JSON_parse).
Local Abbreviation for_of := (Buffered.for_of JSON_parse).

Lemma prefix_units :
  lit "data: " = [100; 97; 116; 97; 58; 32]%N.
Proof. reflexivity. Qed.

Lemma trim_data_line (p : jsstring) :
  nonempty (trimEnd p) = true ->
  trim (lit "data: " ++ p) = lit "data: " ++ trimEnd p.
Proof.
  intros H. unfold trim. rewrite trimEnd_app by exact H.
  rewrite prefix_units. reflexivity.
Qed.

(** A well-formed data line decodes to its value, without a diagnostic. *)
Lemma processLine_data_line (p : jsstring) (v : json) :
  decodes JSON_parse p v -> processLine (lit "data: " ++ p) = ([], v).
Proof.
  intros (_ & Hne & Hdone & Hparse & _).
  unfold Buffered.processLine. rewrite trim_data_line by exact Hne.
  rewrite prefix_units. cbn [app nonempty negb startsWith slice skipn].
  rewrite !N.eqb_refl. cbn [andb].
  rewrite Hdone, Hparse. reflexivity.
Qed.

Lemma for_of_data_lines (lines : list (jsstring * json)) (k : gen) :
  Forall (fun l => decodes JSON_parse (fst l) (snd l)) lines ->
  for_of (map (fun l => lit "data: " ++ fst l) lines) k
  = yield_all (map snd lines) k.
Proof.
  induction 1 as [|[p v] lines Hd _ IH]; [reflexivity|].
  cbn [fst snd] in Hd. cbn [map fst snd Buffered.for_of].
  rewrite (processLine_data_line p v Hd).
  destruct Hd as (_ & _ & _ & _ & Ht). rewrite Ht.
  cbn [do_all]. rewrite IH. reflexivity.
Qed.

Lemma split_valid_stream (payloads : list jsstring) :
  Forall (fun p => no_line_feed p = true) payloads ->
  split (valid_stream payloads)
  = map (fun p => lit "data: " ++ p) payloads ++ [lit "data: [DONE]"; []].
Proof.
  unfold valid_stream.
  induction 1 as [|p ps Hp _ IH]; [reflexivity|].
  cbn [flat_map map].
  replace ((data_line p ++ flat_map data_line ps) ++ line "data: [DONE]")
    with ((lit "data: " ++ p)
            ++ LF :: (flat_map data_line ps ++ line "data: [DONE]"))
    by (unfold data_line, nl; now rewrite <- !app_assoc).
  rewrite split_line_then.
  - now rewrite IH.
  - rewrite no_line_feed_app, Hp. reflexivity.
Qed.

End BufferedLines.

Section BufferedStreams.

Variable JSON_parse : jsstring -> option json.
Variable JSON_stringify : json -> jsstring.

Local Abbreviation for_of := (Buffered.for_of JSON_parse).
Local Abbreviation read_loop := (Buffered.read_loop JSON_parse).

(** The terminator line is decoded like a blank line: nothing is yielded
    or logged for it, and the loop goes on with what follows. *)
Lemma terminator_is_skipped (rest : list jsstring) (k : gen) :
  for_of (lit "data: [DONE]" :: rest) k = for_of rest k.
Proof. reflexivity. Qed.

(** However a valid stream is cut into chunks, the read loop yields the
    values of its data lines in order and then completes. *)
Lemma read_loop_valid_stream (lines : list (jsstring * json))
      (chunks : list jsstring) :
  Forall (fun l => decodes JSON_parse (fst l) (snd l)) lines ->
  List.concat chunks = valid_stream (map fst lines) ->
  read_loop [] (body_of chunks EndOfBody)
  = yield_all (map snd lines) (Done Completed).
Proof.
  intros Hlines Hcat.
  rewrite read_loop_chunks by reflexivity.
  cbn [app]. rewrite Hcat, split_valid_stream.
  - rewrite map_map, popped_app_two, pop_or_empty_app_two.
    rewrite for_of_app, terminator_is_skipped.
    now apply for_of_data_lines.
  - apply Forall_map. eapply Forall_impl; [|exact Hlines].
    intros l H. apply H.
Qed.

End BufferedStreams.

(* ------------------------------------------------------------------ *)
(** * The stream client: chunk boundaries, terminator, reader lock *)

(** X18.  For a valid stream (N well-formed [data: ] lines and the [DONE]
    terminator line) and every way of cutting its text into chunks, the
    buffered stream client performs the request, takes the reader, yields
    the values of the N lines in their order, releases the reader and
    completes; two ways of cutting the stream give the same resumption, so
    the same trace and completion for every consumer: the result does not
    depend on the chunk boundaries. *)
Theorem stream_independent_of_chunking
        (JSON_parse : jsstring -> option json)
        (JSON_stringify : json -> jsstring)
        (messages : list chat_message) (o : options)
        (status : N) (js : outcome json)
        (lines : list (jsstring * json)) (chunks chunks' : list jsstring) :
  Forall (fun l => decodes JSON_parse (fst l) (snd l)) lines ->
  List.concat chunks = valid_stream (map fst lines) ->
  List.concat chunks' = valid_stream (map fst lines) ->
  let client cs :=
    Buffered.sendMessageStream JSON_parse JSON_stringify messages o
      (Resolved (Response true status (Some (body_of cs EndOfBody)) js)) in
  drain (client chunks)
  = (Effect (Fetch CHAT_STREAM (JSON_stringify (chat_request messages o)))
       :: Effect GetReader
       :: map Yielded (map snd lines) ++ [Effect ReleaseLock],
     Completed)
  /\ forall c : consumer, run c (client chunks) = run c (client chunks').
Proof.
  intros Hlines Hcat Hcat' client. split.
  - unfold client, Buffered.sendMessageStream.
    cbn [ok negb body_stream]. rewrite !drain_do.
    rewrite (read_loop_valid_stream JSON_parse lines chunks Hlines Hcat).
    rewrite drain_yield_all_finally. reflexivity.
  - intros c. unfold client, Buffered.sendMessageStream.
    cbn [ok negb body_stream].
    rewrite (chunking_irrelevant JSON_parse chunks chunks' EndOfBody)
      by congruence.
    reflexivity.
Qed.

Lemma stream_independent_of_chunking_witness :
  let he := txt "{'text':'He'}" in
  let llo := txt "{'text':'llo'}" ++ [13%N] in
  let lines :=
    [(he, JObject [(lit "text", JString (lit "He"))]);
     (llo, JObject [(lit "text", JString (lit "llo"))])] in
  let chunks :=
    [lit "da"; txt "ta: {'text':'He'}" ++ nl ++ txt "data: {'te";
     txt "xt':'llo'}" ++ [13%N] ++ nl ++ lit "data: [DO"; line "NE]"] in
  let whole := [valid_stream [he; llo]] in
  let bytewise := map (fun c => [c]) (valid_stream [he; llo]) in
  let client cs :=
    Buffered.sendMessageStream JSON.parse JSON.stringify
      [ChatMessage (lit "user") (lit "hi")] no_options
      (Resolved (Response true 200 (Some (body_of cs EndOfBody))
                          (Throws (TransportError [])))) in
  Forall (fun l => decodes JSON.parse (fst l) (snd l)) lines
  /\ List.concat chunks = valid_stream (map fst lines)
  /\ List.concat bytewise = valid_stream (map fst lines)
  /\ yields (fst (drain (client chunks))) = map snd lines
  /\ drain (client chunks) = drain (client bytewise)
  /\ drain (client whole) = drain (client bytewise).
Proof.
  intros he llo lines chunks whole bytewise client.
  assert (Hl : Forall (fun l => decodes JSON.parse (fst l) (snd l)) lines)
    by (repeat constructor; vm_compute; reflexivity).
  assert (Hc : List.concat chunks = valid_stream (map fst lines))
    by (vm_compute; reflexivity).
  assert (Hb : List.concat bytewise = valid_stream (map fst lines))
    by (vm_compute; reflexivity).
  assert (Hw : List.concat whole = valid_stream (map fst lines))
    by (vm_compute; reflexivity).
  split; [exact Hl|]. split; [exact Hc|]. split; [exact Hb|].
  destruct (stream_independent_of_chunking JSON.parse JSON.stringify
              [ChatMessage (lit "user") (lit "hi")] no_options 200
              (Throws (TransportError [])) lines chunks bytewise Hl Hc Hb)
    as [Htrace Hsame].
  destruct (stream_independent_of_chunking JSON.parse JSON.stringify
              [ChatMessage (lit "user") (lit "hi")] no_options 200
              (Throws (TransportError [])) lines whole bytewise Hl Hw Hb)
    as [_ Hsame'].
  split; [|split].
  - fold (client chunks) in Htrace. rewrite Htrace. vm_compute. reflexivity.
  - exact (Hsame Drain).
  - exact (Hsame' Drain).
Defined.

(** A terminator line cut by a chunk boundary, the chunk [data: [DO]
    followed by the chunk [NE]] and a line feed:
    the first chunk only fills the buffer, the second completes the
    terminator line and empties the buffer, and neither yields a value or
    logs a diagnostic, whatever follows.  With the end of the body after
    them the client completes, once, having yielded and logged nothing.
    The copy that decodes chunk by chunk ends the same way. *)
Theorem split_terminator_is_silent
        (JSON_parse : jsstring -> option json)
        (JSON_stringify : json -> jsstring)
        (messages : list chat_message) (o : options)
        (status : N) (js : outcome json) :
  (forall rest,
      Buffered.read_loop JSON_parse [] (Chunk (lit "data: [DO") rest)
      = Buffered.read_loop JSON_parse (lit "data: [DO") rest)
  /\ (forall rest,
         Buffered.read_loop JSON_parse (lit "data: [DO")
                            (Chunk (line "NE]") rest)
         = Buffered.read_loop JSON_parse [] rest)
  /\ drain (Buffered.sendMessageStream JSON_parse JSON_stringify messages o
              (Resolved (Response true status
                 (Some (Chunk (lit "data: [DO")
                              (Chunk (line "NE]") EndOfBody))) js)))
     = ([Effect (Fetch CHAT_STREAM
                       (JSON_stringify (chat_request messages o)));
         Effect GetReader; Effect ReleaseLock],
        Completed)
  /\ drain (Plain.sendMessageStream JSON.parse JSON_stringify messages o
              (Resolved (Response true status
                 (Some (Chunk (lit "data: [DO")
                              (Chunk (line "NE]") EndOfBody))) js)))
     = ([Effect (Fetch CHAT_STREAM
                       (JSON_stringify (chat_request messages o)));
         Effect GetReader],
        Completed).
Proof.
  repeat split; try reflexivity.
Qed.

(** C3.  The buffered client on a body whose single chunk holds the
    terminator line followed by one more data line: the value of the line
    after the terminator is yielded, and the client completes only when
    the body ends. *)
Theorem buffered_yields_after_terminator :
  drain (Buffered.sendMessageStream JSON.parse JSON.stringify [] no_options
           (streamed [line "data: [DONE]" ++ line "data: {'text':'late'}"]))
  = ([Effect (Fetch CHAT_STREAM
                (JSON.stringify (chat_request [] no_options)));
      Effect GetReader;
      Yielded (JObject [(lit "text", JString (lit "late"))]);
      Effect ReleaseLock],
     Completed).
Proof. vm_compute. reflexivity. Qed.

(** The copy that decodes chunk by chunk executes [return] at the
    terminator: neither the lines after it nor the rest of the body are
    looked at. *)
Lemma plain_stops_at_terminator
      (JSON_parse : jsstring -> option json)
      (before after : list jsstring) (k : gen) :
  Plain.for_of JSON_parse (before ++ lit "data: [DONE]" :: after) k
  = Plain.for_of JSON_parse (before ++ [lit "data: [DONE]"]) (Done Completed).
Proof.
  induction before as [|l before IH]; [reflexivity|].
  cbn [app Plain.for_of].
  destruct (startsWith l (lit "data: ")); [|exact IH].
  destruct (JS.eqb _ _); [reflexivity|].
  destruct (JSON_parse _); [|exact IH].
  unfold yield. now rewrite IH.
Qed.

(** X19.  After a successful response with a readable body, whatever the
    body delivers (chunks, then its end or a failed read) and whatever the
    consumer does (runs to the end, or leaves at any value), the buffered
    client takes the reader once and releases it once, as its last act. *)
Theorem reader_released_exactly_once
        (JSON_parse : jsstring -> option json)
        (JSON_stringify : json -> jsstring)
        (messages : list chat_message) (o : options)
        (status : N) (js : outcome json)
        (b : body) (c : consumer) :
  let t := fst (run c (Buffered.sendMessageStream JSON_parse JSON_stringify
                         messages o
                         (Resolved (Response true status (Some b) js)))) in
  acquisitions t = 1 /\ releases t = 1
  /\ exists pre,
      t = Effect (Fetch CHAT_STREAM (JSON_stringify (chat_request messages o)))
            :: Effect GetReader :: pre ++ [Effect ReleaseLock]
      /\ releases pre = 0 /\ acquisitions pre = 0.
Proof.
  intros t.
  pose proof (run_try_finally (Buffered.read_loop JSON_parse [] b) c
                (lock_free_read_loop JSON_parse b []))
    as (pre & Hpre & Hr & Ha).
  assert (Ht : t = Effect (Fetch CHAT_STREAM
                             (JSON_stringify (chat_request messages o)))
                     :: Effect GetReader :: pre ++ [Effect ReleaseLock]).
  { subst t. unfold Buffered.sendMessageStream. cbn [ok negb body_stream].
    destruct c as [|n]; cbn [run drain break_at] in *.
    - destruct (drain (try_finally _ _)) as [u d]. simpl in *. now subst u.
    - destruct (break_at n (try_finally _ _)) as [u d]. simpl in *.
      now subst u. }
  split; [|split].
  - rewrite Ht.
    change (acquisitions (Effect (Fetch CHAT_STREAM
              (JSON_stringify (chat_request messages o)))
              :: Effect GetReader :: pre ++ [Effect ReleaseLock]))
      with (S (acquisitions (pre ++ [Effect ReleaseLock]))).
    rewrite acquisitions_app, Ha. reflexivity.
  - rewrite Ht.
    change (releases (Effect (Fetch CHAT_STREAM
              (JSON_stringify (chat_request messages o)))
              :: Effect GetReader :: pre ++ [Effect ReleaseLock]))
      with (releases (pre ++ [Effect ReleaseLock])).
    rewrite releases_app, Hr. reflexivity.
  - exists pre. auto.
Qed.

(** The copy that decodes chunk by chunk has no buffer: a data line cut by
    a chunk boundary is lost, where the same text in one chunk yields its
    value; and this copy never releases the reader it takes. *)
Lemma plain_loses_split_line :
  yields (fst (drain (Plain.sendMessageStream JSON.parse JSON.stringify []
                        no_options
                        (streamed [txt "data: {'text':'He";
                                   line "llo'}" ++ line "data: [DONE]"]))))
  = []
  /\ yields (fst (drain (Plain.sendMessageStream JSON.parse JSON.stringify []
                           no_options
                           (streamed [line "data: {'text':'Hello'}"
                                        ++ line "data: [DONE]"]))))
     = [JObject [(lit "text", JString (lit "Hello"))]].
Proof. split; vm_compute; reflexivity. Qed.

Lemma plain_for_of_lock_free
      (JSON_parse : jsstring -> option json)
      (lines : list jsstring) (k : gen) :
  lock_free k = true -> lock_free (Plain.for_of JSON_parse lines k) = true.
Proof.
  intros Hk. induction lines as [|l lines IH]; [exact Hk|].
  cbn [Plain.for_of].
  destruct (startsWith l (lit "data: ")); [|exact IH].
  destruct (JS.eqb _ _); [reflexivity|].
  destruct (JSON_parse _); [|exact IH].
  simpl. now rewrite IH.
Qed.

Lemma plain_read_loop_lock_free
      (JSON_parse : jsstring -> option json) (b : body) :
  lock_free (Plain.read_loop JSON_parse b) = true.
Proof.
  induction b as [| reason | value rest IH]; simpl; try reflexivity.
  now apply plain_for_of_lock_free.
Qed.

Lemma lock_free_never_releases (g : gen) :
  lock_free g = true ->
  forall c, releases (fst (run c g)) = 0.
Proof.
  assert (Hd : forall g, lock_free g = true -> releases (fst (drain g)) = 0).
  { intros g0. induction g0 as [d | e k IH | v k IHk a IHa]; simpl; intros H.
    - reflexivity.
    - apply andb_prop in H. destruct H as [He Hk].
      specialize (IH Hk). destruct (drain k) as [t d]. simpl in *.
      destruct e; try discriminate; exact IH.
    - apply andb_prop in H. destruct H as [Hk _].
      specialize (IHk Hk). destruct (drain k) as [t d]. exact IHk. }
  induction g as [d | e k IH | v k IHk a IHa]; simpl lock_free; intros H c.
  - destruct c; reflexivity.
  - apply andb_prop in H. destruct H as [He Hk].
    destruct c as [|n].
    + apply Hd. simpl. now rewrite He, Hk.
    + specialize (IH Hk (BreakAt n)). simpl in *.
      destruct (break_at n k) as [t d]. simpl in *.
      destruct e; try discriminate; exact IH.
  - apply andb_prop in H. destruct H as [Hk Ha].
    destruct c as [|[|m]].
    + apply Hd. simpl. now rewrite Hk, Ha.
    + specialize (Hd a Ha). simpl. destruct (drain a) as [t d]. exact Hd.
    + specialize (IHk Hk (BreakAt m)). simpl in *.
      destruct (break_at m k) as [t d]. exact IHk.
Qed.

Lemma plain_never_releases
      (JSON_parse : jsstring -> option json)
      (JSON_stringify : json -> jsstring)
      (messages : list chat_message) (o : options) (f : fetched)
      (c : consumer) :
  releases (fst (run c (Plain.sendMessageStream JSON_parse JSON_stringify
                          messages o f))) = 0.
Proof.
  assert (H : forall g, lock_free g = true ->
                        releases (fst (run c (Do (Fetch CHAT_STREAM
                          (JSON_stringify (chat_request messages o))) g))) = 0).
  { intros g Hg. pose proof (lock_free_never_releases g Hg c) as Hr.
    destruct c as [|n]; simpl in *.
    - destruct (drain g) as [t d]. exact Hr.
    - destruct (break_at n g) as [t d]. exact Hr. }
  unfold Plain.sendMessageStream.
  destruct f as [reason | response]; [now apply H|].
  destruct (negb (ok response)); [now apply H|].
  destruct (body_stream response) as [b|]; [|now apply H].
  pose proof (lock_free_never_releases _ (plain_read_loop_lock_free JSON_parse b) c)
    as Hr.
  destruct c as [|n]; simpl in *.
  - destruct (drain (Plain.read_loop JSON_parse b)) as [t d]. exact Hr.
  - destruct (break_at n (Plain.read_loop JSON_parse b)) as [t d]. exact Hr.
Qed.

(* ------------------------------------------------------------------ *)
(** * Single lines: empty payload, malformed payload, residual line *)

(** C5, as the code has it.  A complete line that consists of the prefix
    [data: ] and an empty payload yields nothing, neither a value nor a
    diagnostic: the buffered client trims the line, which then no longer
    bears the six-character prefix, and goes on with the next line; the
    copy that decodes chunk by chunk discards the failed parse. *)
Theorem empty_payload_line_is_skipped
        (JSON_parse : jsstring -> option json)
        (lines : list jsstring) (k : gen) (rest : body) :
  Buffered.processLine JSON_parse (lit "data: ") = ([], JNull)
  /\ Buffered.for_of JSON_parse (lit "data: " :: lines) k
     = Buffered.for_of JSON_parse lines k
  /\ Buffered.read_loop JSON_parse [] (Chunk (data_line []) rest)
     = Buffered.read_loop JSON_parse [] rest
  /\ Plain.for_of JSON.parse (lit "data: " :: lines) k
     = Plain.for_of JSON.parse lines k.
Proof. repeat split; reflexivity. Qed.

(** C5 as stated fails: the trace of the buffered client on a body made of
    the line [data: ] alone holds no diagnostic. *)
Lemma empty_payload_line_no_diagnostic :
  drain (Buffered.sendMessageStream JSON.parse JSON.stringify [] no_options
           (streamed [data_line []]))
  = ([Effect (Fetch CHAT_STREAM
                (JSON.stringify (chat_request [] no_options)));
      Effect GetReader; Effect ReleaseLock],
     Completed)
  /\ ~ exists d,
        In (Effect (ConsoleWarn d))
           (fst (drain (Buffered.sendMessageStream JSON.parse JSON.stringify
                          [] no_options (streamed [data_line []])))).
Proof.
  assert (E : drain (Buffered.sendMessageStream JSON.parse JSON.stringify []
                       no_options (streamed [data_line []]))
              = ([Effect (Fetch CHAT_STREAM
                            (JSON.stringify (chat_request [] no_options)));
                  Effect GetReader; Effect ReleaseLock],
                 Completed)).
  { vm_compute. reflexivity. }
  split; [exact E|]. rewrite E. intros [d Hd]. simpl in Hd.
  destruct Hd as [H | [H | [H | []]]]; discriminate.
Qed.

(** X20.  When [JSON.parse] rejects [{malformed json], the chunk holding
    the line [data: {malformed json] makes the buffered client log exactly
    one diagnostic, carrying that payload, and go on with the rest of the
    body as if the line had not been there; the data lines of a valid
    stream that follows are all yielded, in order, and the client
    completes. *)
Theorem malformed_line_warns_once_and_continues
        (JSON_parse : jsstring -> option json)
        (JSON_stringify : json -> jsstring)
        (messages : list chat_message) (o : options)
        (status : N) (js : outcome json)
        (lines : list (jsstring * json)) (chunks : list jsstring) :
  JSON_parse (lit "{malformed json") = None ->
  Forall (fun l => decodes JSON_parse (fst l) (snd l)) lines ->
  List.concat chunks = valid_stream (map fst lines) ->
  (forall rest,
      Buffered.read_loop JSON_parse []
                         (Chunk (line "data: {malformed json") rest)
      = Do (ConsoleWarn (lit "{malformed json"))
           (Buffered.read_loop JSON_parse [] rest))
  /\ drain (Buffered.sendMessageStream JSON_parse JSON_stringify messages o
              (Resolved (Response true status
                 (Some (Chunk (line "data: {malformed json")
                              (body_of chunks EndOfBody))) js)))
     = (Effect (Fetch CHAT_STREAM (JSON_stringify (chat_request messages o)))
          :: Effect GetReader
          :: Effect (ConsoleWarn (lit "{malformed json"))
          :: map Yielded (map snd lines) ++ [Effect ReleaseLock],
        Completed).
Proof.
  intros Hbad Hlines Hcat.
  assert (Hstep : forall rest,
             Buffered.read_loop JSON_parse []
                                (Chunk (line "data: {malformed json") rest)
             = Do (ConsoleWarn (lit "{malformed json"))
                  (Buffered.read_loop JSON_parse [] rest)).
  { intros rest. cbn [Buffered.read_loop app].
    change (split (line "data: {malformed json"))
      with [lit "data: {malformed json"; []].
    cbn [popped removelast pop_or_empty last Buffered.for_of].
    change (Buffered.processLine JSON_parse (lit "data: {malformed json"))
      with (match JSON_parse (lit "{malformed json") with
            | Some parsed => ([], parsed)
            | None => ([ConsoleWarn (lit "{malformed json")], JNull)
            end).
    rewrite Hbad. reflexivity. }
  split; [exact Hstep|].
  unfold Buffered.sendMessageStream. cbn [ok negb body_stream].
  rewrite Hstep. cbn [try_finally]. rewrite !drain_do.
  rewrite (read_loop_valid_stream JSON_parse lines chunks Hlines Hcat).
  rewrite drain_yield_all_finally. reflexivity.
Qed.

Lemma malformed_line_warns_once_and_continues_witness :
  let lines := [(txt "{'text':'ok'}",
                 JObject [(lit "text", JString (lit "ok"))])] in
  let chunks := [txt "data: {'text':"; txt "'ok'}" ++ nl;
                 line "data: [DONE]"] in
  JSON.parse (lit "{malformed json") = None
  /\ Forall (fun l => decodes JSON.parse (fst l) (snd l)) lines
  /\ List.concat chunks = valid_stream (map fst lines)
  /\ drain (Buffered.sendMessageStream JSON.parse JSON.stringify [] no_options
              (Resolved (Response true 200
                 (Some (Chunk (line "data: {malformed json")
                              (body_of chunks EndOfBody)))
                 (Throws (TransportError [])))))
     = (Effect (Fetch CHAT_STREAM
                  (JSON.stringify (chat_request [] no_options)))
          :: Effect GetReader
          :: Effect (ConsoleWarn (lit "{malformed json"))
          :: map Yielded (map snd lines) ++ [Effect ReleaseLock],
        Completed).
Proof.
  intros lines chunks.
  assert (Hb : JSON.parse (lit "{malformed json") = None)
    by (vm_compute; reflexivity).
  assert (Hl : Forall (fun l => decodes JSON.parse (fst l) (snd l)) lines)
    by (repeat constructor; vm_compute; reflexivity).
  assert (Hc : List.concat chunks = valid_stream (map fst lines))
    by (vm_compute; reflexivity).
  split; [exact Hb|]. split; [exact Hl|]. split; [exact Hc|].
  exact (proj2 (malformed_line_warns_once_and_continues
                  JSON.parse JSON.stringify [] no_options 200
                  (Throws (TransportError [])) lines chunks Hb Hl Hc)).
Defined.

(** C7.  At the end of the body with [data: {"text":"partial"}] left in the
    buffer (no line feed after it), the buffered client decodes that
    residual line: it yields the value of the payload, once, then releases
    the reader and completes; asked again, the finished generator runs
    nothing and yields nothing. *)
Theorem flush_decodes_residual_line_once
        (JSON_parse : jsstring -> option json) (v : json) :
  JSON_parse (txt "{'text':'partial'}") = Some v ->
  ToBoolean v = true ->
  let buffer := txt "data: {'text':'partial'}" in
  let g := try_finally (Buffered.read_loop JSON_parse buffer EndOfBody)
                       ReleaseLock in
  Buffered.flush JSON_parse buffer = yield v (Done Completed)
  /\ Buffered.read_loop JSON_parse [] (Chunk buffer EndOfBody)
     = Buffered.read_loop JSON_parse buffer EndOfBody
  /\ drain g = ([Yielded v; Effect ReleaseLock], Completed)
  /\ exists g1 g2,
      next g = ([], Value v, g1)
      /\ next g1 = ([ReleaseLock], Finished Completed, g2)
      /\ next g2 = ([], Finished Completed, g2).
Proof.
  intros Hparse Htrue buffer g.
  assert (Hflush : Buffered.flush JSON_parse buffer = yield v (Done Completed)).
  { unfold Buffered.flush.
    change (nonempty (trim buffer)) with true. cbn iota.
    change (split buffer) with [buffer].
    cbn [Buffered.for_of].
    change (Buffered.processLine JSON_parse buffer)
      with (match JSON_parse (txt "{'text':'partial'}") with
            | Some parsed => ([], parsed)
            | None => ([ConsoleWarn (txt "{'text':'partial'}")], JNull)
            end).
    rewrite Hparse. cbn [do_all]. rewrite Htrue. reflexivity. }
  split; [exact Hflush|]. split; [reflexivity|].
  subst g. cbn [Buffered.read_loop]. rewrite Hflush.
  split; [reflexivity|].
  exists (Do ReleaseLock (Done Completed)), (Done Completed).
  repeat split; reflexivity.
Qed.

Lemma flush_decodes_residual_line_once_witness :
  let v := JObject [(lit "text", JString (lit "partial"))] in
  let buffer := txt "data: {'text':'partial'}" in
  let g := try_finally (Buffered.read_loop JSON.parse buffer EndOfBody)
                       ReleaseLock in
  JSON.parse (txt "{'text':'partial'}") = Some v
  /\ ToBoolean v = true
  /\ Buffered.flush JSON.parse buffer = yield v (Done Completed)
  /\ drain g = ([Yielded v; Effect ReleaseLock], Completed).
Proof.
  intros v buffer g.
  assert (Hp : JSON.parse (txt "{'text':'partial'}") = Some v)
    by (vm_compute; reflexivity).
  assert (Ht : ToBoolean v = true) by reflexivity.
  split; [exact Hp|]. split; [exact Ht|].
  destruct (flush_decodes_residual_line_once JSON.parse v Hp Ht)
    as (Hflush & _ & Hdrain & _).
  split; [exact Hflush | exact Hdrain].
Defined.

(* ------------------------------------------------------------------ *)
(** * The WebSocket client and the request body *)

(** C8.  On the inbound messages [{"type":"token","token":"a"}],
    [{"type":"token","token":"b"}], [{"type":"complete"}], in this order,
    the client calls [onMessage("a")], [onMessage("b")] and [onComplete()],
    each once and in this order, and does nothing else: [onError] is not
    called.  A message that parses to a value whose [type] is none of
    [token], [complete], [error] makes the handler do nothing at all. *)
Theorem duplex_dispatch_by_type
        (JSON_parse : jsstring -> option json)
        (text : jsstring) (data : json) (type : jsvalue) :
  JSON_parse text = Some data ->
  get data (lit "type") = Read type ->
  is_string type (lit "token") = false ->
  is_string type (lit "complete") = false ->
  is_string type (lit "error") = false ->
  WebSocket.dispatch JSON.parse
    [WebSocket.MessageEvent (txt "{'type':'token','token':'a'}");
     WebSocket.MessageEvent (txt "{'type':'token','token':'b'}");
     WebSocket.MessageEvent (txt "{'type':'complete'}")]
  = [WebSocket.CallOnMessage (Some (JString (lit "a")));
     WebSocket.CallOnMessage (Some (JString (lit "b")));
     WebSocket.CallOnComplete]
  /\ WebSocket.onmessage JSON_parse text = []
  /\ forall before after,
      WebSocket.dispatch JSON_parse
        (before ++ WebSocket.MessageEvent text :: after)
      = WebSocket.dispatch JSON_parse (before ++ after).
Proof.
  intros Hparse Hget Ht Hc He.
  assert (Hnone : WebSocket.onmessage JSON_parse text = []).
  { unfold WebSocket.onmessage. now rewrite Hparse, Hget, Ht, Hc, He. }
  split; [vm_compute; reflexivity|]. split; [exact Hnone|].
  intros before after. unfold WebSocket.dispatch.
  rewrite !flat_map_app. cbn [flat_map WebSocket.createWebSocketChat].
  now rewrite Hnone.
Qed.

Lemma duplex_dispatch_by_type_witness :
  let text := txt "{'type':'ping','token':'x'}" in
  let data := JObject [(lit "type", JString (lit "ping"));
                       (lit "token", JString (lit "x"))] in
  let type := Some (JString (lit "ping")) in
  JSON.parse text = Some data
  /\ get data (lit "type") = Read type
  /\ is_string type (lit "token") = false
  /\ is_string type (lit "complete") = false
  /\ is_string type (lit "error") = false
  /\ WebSocket.onmessage JSON.parse text = []
  /\ WebSocket.dispatch JSON.parse
       [WebSocket.MessageEvent (txt "{'type':'token','token':'a'}");
        WebSocket.MessageEvent text;
        WebSocket.MessageEvent (txt "{'type':'complete'}")]
     = WebSocket.dispatch JSON.parse
         [WebSocket.MessageEvent (txt "{'type':'token','token':'a'}");
          WebSocket.MessageEvent (txt "{'type':'complete'}")].
Proof.
  intros text data type.
  assert (H1 : JSON.parse text = Some data) by (vm_compute; reflexivity).
  assert (H2 : get data (lit "type") = Read type) by (vm_compute; reflexivity).
  assert (H3 : is_string type (lit "token") = false) by reflexivity.
  assert (H4 : is_string type (lit "complete") = false) by reflexivity.
  assert (H5 : is_string type (lit "error") = false) by reflexivity.
  destruct (duplex_dispatch_by_type JSON.parse text data type H1 H2 H3 H4 H5)
    as (_ & Hnone & Hdrop).
  repeat (split; [assumption|]).
  exact (Hdrop [WebSocket.MessageEvent
                  (txt "{'type':'token','token':'a'}")]
               [WebSocket.MessageEvent (txt "{'type':'complete'}")]).
Defined.

(** C9.  [sendWebSocketMessage] on a socket in state OPEN hands exactly one
    frame to [ws.send], after those already sent: the serialization of an
    object whose [type] is ["chat"] and whose [messages] is the array of
    the messages in their order.  In any other state it throws and the
    socket is as before: nothing is sent and nothing is kept for later. *)
Theorem send_requires_open_socket
        (JSON_stringify : json -> jsstring)
        (ws : WebSocket.websocket) (messages : list chat_message) :
  (WebSocket.readyState ws = WebSocket.OPEN ->
   WebSocket.sendWebSocketMessage JSON_stringify ws messages
   = (Returns tt,
      WebSocket.Socket WebSocket.OPEN
        (WebSocket.sent ws
           ++ [JSON_stringify (WebSocket.chat_frame messages)])))
  /\ (WebSocket.readyState ws <> WebSocket.OPEN ->
      WebSocket.sendWebSocketMessage JSON_stringify ws messages
      = (Throws NotConnected, ws))
  /\ get (WebSocket.chat_frame messages) (lit "type")
     = Read (Some (JString (lit "chat")))
  /\ get (WebSocket.chat_frame messages) (lit "messages")
     = Read (Some (JArray (map message_json messages))).
Proof.
  unfold WebSocket.sendWebSocketMessage.
  split; [|split; [|split; reflexivity]].
  - intros H. now rewrite H.
  - intros H. destruct (WebSocket.readyState ws); congruence.
Qed.

Lemma send_requires_open_socket_witness :
  let messages := [ChatMessage (lit "user") (lit "hi")] in
  let opened := WebSocket.Socket WebSocket.OPEN [] in
  let connecting := WebSocket.Socket WebSocket.CONNECTING [] in
  WebSocket.readyState opened = WebSocket.OPEN
  /\ WebSocket.readyState connecting <> WebSocket.OPEN
  /\ WebSocket.sendWebSocketMessage JSON.stringify opened messages
     = (Returns tt,
        WebSocket.Socket WebSocket.OPEN
          [txt "{'type':'chat','messages':[{'role':'user','content':'hi'}]}"])
  /\ WebSocket.sendWebSocketMessage JSON.stringify connecting messages
     = (Throws NotConnected, connecting).
Proof.
  intros messages opened connecting.
  assert (Ho : WebSocket.readyState opened = WebSocket.OPEN) by reflexivity.
  assert (Hc : WebSocket.readyState connecting <> WebSocket.OPEN)
    by discriminate.
  split; [exact Ho|]. split; [exact Hc|].
  split.
  - rewrite (proj1 (send_requires_open_socket JSON.stringify opened messages) Ho).
    vm_compute. reflexivity.
  - exact (proj1 (proj2 (send_requires_open_socket JSON.stringify connecting
                           messages)) Hc).
Defined.

(** C10.  In the object that [sendMessage] and [sendMessageStream]
    serialize as request body, a generation parameter supplied as 0 is
    replaced by its default: [max_tokens] 1000, [temperature] 0.7,
    [top_p] 0.9, as for a parameter that is not supplied. *)
Theorem zero_parameter_replaced_by_default
        (JSON_parse : jsstring -> option json)
        (JSON_stringify : json -> jsstring)
        (messages : list chat_message) (o : options) (f : fetched)
        (zero : decimal) :
  rounds_to_zero zero = true ->
  let supplied := Some (JNumber zero) in
  get (chat_request messages (Options supplied (temperature o) (topP o)))
      (lit "max_tokens") = Read (Some (number 1000 0))
  /\ get (chat_request messages (Options (maxTokens o) supplied (topP o)))
         (lit "temperature") = Read (Some (number 7 (-1)))
  /\ get (chat_request messages (Options (maxTokens o) (temperature o) supplied))
         (lit "top_p") = Read (Some (number 9 (-1)))
  /\ chat_request messages (Options supplied supplied supplied)
     = chat_request messages no_options
  /\ fst (sendMessage JSON_stringify messages o f)
     = [Fetch CHAT (JSON_stringify (chat_request messages o))]
  /\ (exists k,
         Buffered.sendMessageStream JSON_parse JSON_stringify messages o f
         = Do (Fetch CHAT_STREAM (JSON_stringify (chat_request messages o))) k)
  /\ (exists k,
         Plain.sendMessageStream JSON_parse JSON_stringify messages o f
         = Do (Fetch CHAT_STREAM (JSON_stringify (chat_request messages o))) k).
Proof.
  intros Hz supplied.
  assert (Hor : forall d, or_else supplied d = d).
  { intros d. unfold supplied. cbn [or_else ToBoolean]. now rewrite Hz. }
  unfold chat_request. cbn [maxTokens temperature topP].
  repeat split.
  - cbn [get]. rewrite Hor. vm_compute. reflexivity.
  - cbn [get]. rewrite Hor.
    cbn [lookup]. reflexivity.
  - cbn [get]. rewrite Hor. reflexivity.
  - now rewrite !Hor.
  - eexists. reflexivity.
  - eexists. reflexivity.
Qed.

Lemma zero_parameter_replaced_by_default_witness :
  let zero := Decimal false 0 0 in
  let supplied := Some (JNumber zero) in
  rounds_to_zero zero = true
  /\ get (chat_request [] (Options undefined supplied undefined))
         (lit "temperature") = Read (Some (number 7 (-1)))
  /\ JSON.stringify (chat_request [] (Options supplied supplied supplied))
     = txt "{'messages':[],'max_tokens':1000,'temperature':0.7,'top_p':0.9}".
Proof.
  intros zero supplied.
  assert (Hz : rounds_to_zero zero = true) by reflexivity.
  destruct (zero_parameter_replaced_by_default JSON.parse JSON.stringify []
              no_options (Rejected []) zero Hz)
    as (_ & Htemp & _ & Hall & _).
  split; [exact Hz|]. split; [exact Htemp|].
  fold supplied in Hall. rewrite Hall. vm_compute. reflexivity.
Defined.

(* ------------------------------------------------------------------ *)
(** * The buffered client on any body *)

Section BufferedBodies.

Variable JSON_parse : jsstring -> option json.

Local Abbreviation for_of := (Buffered.for_of JSON_parse).
Local Abbreviation read_loop := (Buffered.read_loop JSON_parse).

Lemma for_of_blank_trim (l : jsstring) (k : gen) :
  nonempty (trim l) = false -> for_of [l] k = k.
Proof.
  intros H. cbn [Buffered.for_of]. unfold Buffered.processLine.
  rewrite H. reflexivity.
Qed.

(** At the end of the body the buffer, which holds no line feed, is
    decoded as one more line. *)
Lemma flush_one_line (b : jsstring) :
  no_line_feed b = true ->
  Buffered.flush JSON_parse b = for_of [b] (Done Completed).
Proof.
  intros Hb. unfold Buffered.flush. rewrite (split_one_line _ Hb).
  destruct (nonempty (trim b)) eqn:E; [reflexivity|].
  now rewrite for_of_blank_trim.
Qed.

Lemma read_loop_whole_text (chunks : list jsstring) :
  read_loop [] (body_of chunks EndOfBody)
  = for_of (split (List.concat chunks)) (Done Completed).
Proof.
  rewrite read_loop_chunks by reflexivity. cbn [app Buffered.read_loop].
  rewrite flush_one_line by apply last_segment_one_line.
  rewrite <- for_of_app. unfold popped, pop_or_empty.
  rewrite <- app_removelast_last by apply split_not_nil. reflexivity.
Qed.

Lemma popped_split_fragment (t frag : jsstring) :
  no_line_feed frag = true ->
  popped (split (t ++ frag)) = popped (split t).
Proof.
  intros Hf. rewrite split_app.
  rewrite (split_one_line (pop_or_empty (split t) ++ frag)).
  - unfold popped at 1. rewrite removelast_app; [|discriminate].
    cbn [removelast]. now rewrite app_nil_r.
  - rewrite no_line_feed_app, last_segment_one_line, Hf. reflexivity.
Qed.

Lemma drain_completion_finally (g : gen) (e : effect) :
  snd (drain (try_finally g e)) = snd (drain g).
Proof.
  induction g as [c | e' k IH | v k IHk a IHa]; cbn [try_finally].
  - reflexivity.
  - rewrite !drain_do. exact IH.
  - rewrite !drain_yield. exact IHk.
Qed.

Lemma drain_completion_do_all (es : list effect) (k : gen) :
  snd (drain (do_all es k)) = snd (drain k).
Proof.
  induction es as [|e es IH]; [reflexivity|].
  cbn [do_all]. rewrite drain_do. exact IH.
Qed.

Lemma drain_completion_for_of (lines : list jsstring) (k : gen) :
  snd (drain (for_of lines k)) = snd (drain k).
Proof.
  induction lines as [|l lines IH]; [reflexivity|].
  cbn [Buffered.for_of]. destruct (Buffered.processLine JSON_parse l) as [log v].
  rewrite drain_completion_do_all.
  destruct (ToBoolean v); [|exact IH].
  unfold yield. rewrite drain_yield. exact IH.
Qed.

End BufferedBodies.

(** X1.  On a successful response whose body ends, however it is cut into
    chunks, the buffered client does what decoding the lines of the whole
    text, split at the line feeds and taken in order, does: the segment
    after the last line feed is decoded too, as the last line. *)
Theorem buffered_decodes_whole_text
        (JSON_parse : jsstring -> option json)
        (JSON_stringify : json -> jsstring)
        (messages : list chat_message) (o : options)
        (status : N) (js : outcome json) (chunks : list jsstring) :
  Buffered.sendMessageStream JSON_parse JSON_stringify messages o
    (Resolved (Response true status (Some (body_of chunks EndOfBody)) js))
  = Do (Fetch CHAT_STREAM (JSON_stringify (chat_request messages o)))
       (Do GetReader
           (try_finally
              (Buffered.for_of JSON_parse (split (List.concat chunks))
                               (Done Completed))
              ReleaseLock)).
Proof.
  unfold Buffered.sendMessageStream. cbn [ok negb body_stream].
  now rewrite read_loop_whole_text.
Qed.

(** X2.  Two ways of cutting the same text into chunks, whatever the text
    (valid or not) and however the body ends (its end or a failed read),
    give the same trace and completion of the buffered client, for every
    consumer. *)
Theorem buffered_chunking_irrelevant
        (JSON_parse : jsstring -> option json)
        (JSON_stringify : json -> jsstring)
        (messages : list chat_message) (o : options)
        (status : N) (js : outcome json)
        (chunks chunks' : list jsstring) (ending : body) (c : consumer) :
  List.concat chunks = List.concat chunks' ->
  run c (Buffered.sendMessageStream JSON_parse JSON_stringify messages o
           (Resolved (Response true status
                               (Some (body_of chunks ending)) js)))
  = run c (Buffered.sendMessageStream JSON_parse JSON_stringify messages o
             (Resolved (Response true status
                                 (Some (body_of chunks' ending)) js))).
Proof.
  intros H. unfold Buffered.sendMessageStream. cbn [ok negb body_stream].
  now rewrite (chunking_irrelevant JSON_parse chunks chunks' ending H).
Qed.

Lemma buffered_chunking_irrelevant_witness :
  let chunks := [lit "data: {bro"; lit "ken" ++ nl ++ lit "da"; lit "ta: 1"] in
  let chunks' := [lit "data: {broken" ++ nl ++ lit "data: 1"] in
  List.concat chunks = List.concat chunks'
  /\ run (BreakAt 0)
         (Buffered.sendMessageStream JSON.parse JSON.stringify [] no_options
            (Resolved (Response true 200
                         (Some (body_of chunks (Broken (lit "reset"))))
                         (Throws (TransportError [])))))
     = run (BreakAt 0)
           (Buffered.sendMessageStream JSON.parse JSON.stringify [] no_options
              (Resolved (Response true 200
                           (Some (body_of chunks' (Broken (lit "reset"))))
                           (Throws (TransportError []))))).
Proof.
  intros chunks chunks'.
  assert (H : List.concat chunks = List.concat chunks')
    by (vm_compute; reflexivity).
  split; [exact H|].
  exact (buffered_chunking_irrelevant JSON.parse JSON.stringify [] no_options
           200 (Throws (TransportError [])) chunks chunks'
           (Broken (lit "reset")) (BreakAt 0) H).
Defined.

(** X3.  When a read of the body fails, the buffered client has decoded
    the lines that were complete (ended by a line feed) in what it had
    received, and nothing else: the unfinished segment in its buffer is
    dropped, so a fragment without line feed received just before the
    failure changes nothing.  The client then releases the reader and
    throws the error of the read. *)
Theorem buffered_failed_read_drops_fragment
        (JSON_parse : jsstring -> option json)
        (JSON_stringify : json -> jsstring)
        (messages : list chat_message) (o : options)
        (status : N) (js : outcome json)
        (chunks : list jsstring) (fragment reason : jsstring) :
  no_line_feed fragment = true ->
  let client cs :=
    Buffered.sendMessageStream JSON_parse JSON_stringify messages o
      (Resolved (Response true status
                          (Some (body_of cs (Broken reason))) js)) in
  client chunks
  = Do (Fetch CHAT_STREAM (JSON_stringify (chat_request messages o)))
       (Do GetReader
           (try_finally
              (Buffered.for_of JSON_parse
                 (popped (split (List.concat chunks)))
                 (Done (Threw (TransportError reason))))
              ReleaseLock))
  /\ snd (drain (client chunks)) = Threw (TransportError reason)
  /\ client (chunks ++ [fragment]) = client chunks.
Proof.
  intros Hf client.
  assert (Hshape : forall cs,
             client cs
             = Do (Fetch CHAT_STREAM (JSON_stringify (chat_request messages o)))
                  (Do GetReader
                      (try_finally
                         (Buffered.for_of JSON_parse
                            (popped (split (List.concat cs)))
                            (Done (Threw (TransportError reason))))
                         ReleaseLock))).
  { intros cs. unfold client, Buffered.sendMessageStream.
    cbn [ok negb body_stream].
    now rewrite read_loop_chunks by reflexivity. }
  split; [apply Hshape|]. split.
  - rewrite Hshape, !drain_do. cbn [snd].
    rewrite drain_completion_finally, drain_completion_for_of. reflexivity.
  - rewrite !Hshape, concat_app. cbn [List.concat].
    rewrite app_nil_r, (popped_split_fragment _ _ Hf). reflexivity.
Qed.

Lemma buffered_failed_read_drops_fragment_witness :
  let chunks := [line "data: {'text':'a'}"] in
  let fragment := txt "data: {'text':'b'}" in
  let client cs :=
    Buffered.sendMessageStream JSON.parse JSON.stringify [] no_options
      (Resolved (Response true 200
                          (Some (body_of cs (Broken (lit "reset"))))
                          (Throws (TransportError [])))) in
  no_line_feed fragment = true
  /\ client (chunks ++ [fragment]) = client chunks
  /\ snd (drain (client chunks)) = Threw (TransportError (lit "reset")).
Proof.
  intros chunks fragment client.
  assert (H : no_line_feed fragment = true) by reflexivity.
  destruct (buffered_failed_read_drops_fragment JSON.parse JSON.stringify []
              no_options 200 (Throws (TransportError [])) chunks fragment
              (lit "reset") H) as (_ & Hthrow & Hsame).
  split; [exact H|]. split; [exact Hsame | exact Hthrow].
Defined.

(* ------------------------------------------------------------------ *)
(** * What the consumer receives *)

Section Received.

Lemma yields_effect (e : effect) (t : list event) :
  yields (Effect e :: t) = yields t.
Proof. reflexivity. Qed.

Lemma yields_yielded (v : json) (t : list event) :
  yields (Yielded v :: t) = v :: yields t.
Proof. reflexivity. Qed.

Lemma break_at_do (n : nat) (e : effect) (k : gen) :
  break_at n (Do e k) = (Effect e :: fst (break_at n k), snd (break_at n k)).
Proof. simpl. now destruct (break_at n k). Qed.

Lemma break_at_yield_next (m : nat) (v : json) (k a : gen) :
  break_at (S m) (Yield v k a)
  = (Yielded v :: fst (break_at m k), snd (break_at m k)).
Proof. simpl. now destruct (break_at m k). Qed.

Lemma break_at_yield_here (v : json) (k a : gen) :
  break_at 0 (Yield v k a) = (Yielded v :: fst (drain a), snd (drain a)).
Proof. simpl. now destruct (drain a). Qed.

Lemma drain_all_yields (P : json -> bool) (g : gen) :
  all_yields P g = true ->
  Forall (fun v => P v = true) (yields (fst (drain g))).
Proof.
  induction g as [c | e k IH | v k IHk a IHa]; cbn [all_yields]; intros H.
  - constructor.
  - rewrite drain_do. cbn [fst]. rewrite yields_effect. auto.
  - apply andb_prop in H. destruct H as [H Ha].
    apply andb_prop in H. destruct H as [Hv Hk].
    rewrite drain_yield. cbn [fst]. rewrite yields_yielded.
    constructor; auto.
Qed.

Lemma break_at_all_yields (P : json -> bool) (g : gen) :
  all_yields P g = true ->
  forall n, Forall (fun v => P v = true) (yields (fst (break_at n g))).
Proof.
  induction g as [c | e k IH | v k IHk a IHa]; cbn [all_yields]; intros H n.
  - constructor.
  - rewrite break_at_do. cbn [fst]. rewrite yields_effect. auto.
  - apply andb_prop in H. destruct H as [H Ha].
    apply andb_prop in H. destruct H as [Hv Hk].
    destruct n as [|m].
    + rewrite break_at_yield_here. cbn [fst]. rewrite yields_yielded.
      constructor; [exact Hv|]. now apply drain_all_yields.
    + rewrite break_at_yield_next. cbn [fst]. rewrite yields_yielded.
      constructor; auto.
Qed.

Lemma run_all_yields (P : json -> bool) (g : gen) (c : consumer) :
  all_yields P g = true ->
  Forall (fun v => P v = true) (yields (fst (run c g))).
Proof.
  intros H. destruct c as [|n]; cbn [run].
  - now apply drain_all_yields.
  - now apply break_at_all_yields.
Qed.

Lemma all_yields_try_finally (P : json -> bool) (g : gen) (e : effect) :
  all_yields P g = true -> all_yields P (try_finally g e) = true.
Proof.
  induction g as [c | e' k IH | v k IHk a IHa]; cbn [all_yields try_finally];
    intros H; auto.
  apply andb_prop in H. destruct H as [H Ha].
  apply andb_prop in H. destruct H as [Hv Hk].
  now rewrite Hv, IHk, IHa.
Qed.

Lemma all_yields_do_all (P : json -> bool) (es : list effect) (k : gen) :
  all_yields P (do_all es k) = all_yields P k.
Proof. induction es; cbn [do_all all_yields]; auto. Qed.

Lemma yield_free_drain (g : gen) :
  yield_free g = true -> yields (fst (drain g)) = [].
Proof.
  induction g as [c | e k IH | v k IHk a IHa]; cbn [yield_free]; intros H.
  - reflexivity.
  - rewrite drain_do. cbn [fst]. rewrite yields_effect. auto.
  - discriminate.
Qed.

(** A consumer that leaves at the value number [n] has received the first
    [n + 1] values of the full run, no other. *)
Lemma break_at_prefix (g : gen) :
  abandon_silent g = true ->
  forall n, yields (fst (break_at n g))
            = firstn (S n) (yields (fst (drain g))).
Proof.
  induction g as [c | e k IH | v k IHk a IHa]; cbn [abandon_silent];
    intros H n.
  - reflexivity.
  - rewrite break_at_do, drain_do. cbn [fst]. rewrite !yields_effect. auto.
  - apply andb_prop in H. destruct H as [Hk Ha].
    rewrite drain_yield. cbn [fst]. rewrite yields_yielded.
    destruct n as [|m].
    + rewrite break_at_yield_here. cbn [fst].
      rewrite yields_yielded, (yield_free_drain a Ha). reflexivity.
    + rewrite break_at_yield_next. cbn [fst].
      rewrite yields_yielded, (IHk Hk m). reflexivity.
Qed.

Lemma yield_free_try_finally (g : gen) (e : effect) :
  yield_free g = true -> yield_free (try_finally g e) = true.
Proof.
  induction g as [c | e' k IH | v k IHk a IHa]; cbn [yield_free try_finally];
    auto.
Qed.

Lemma abandon_silent_try_finally (g : gen) (e : effect) :
  abandon_silent g = true -> abandon_silent (try_finally g e) = true.
Proof.
  induction g as [c | e' k IH | v k IHk a IHa];
    cbn [abandon_silent try_finally]; intros H; auto.
  apply andb_prop in H. destruct H as [Hk Ha].
  now rewrite IHk, yield_free_try_finally.
Qed.

Lemma abandon_silent_do_all (es : list effect) (k : gen) :
  abandon_silent (do_all es k) = abandon_silent k.
Proof. induction es; cbn [do_all abandon_silent]; auto. Qed.

Variable JSON_parse : jsstring -> option json.

Lemma buffered_for_of_truthy (lines : list jsstring) (k : gen) :
  all_yields ToBoolean k = true ->
  all_yields ToBoolean (Buffered.for_of JSON_parse lines k) = true.
Proof.
  intros Hk. induction lines as [|l lines IH]; [exact Hk|].
  cbn [Buffered.for_of].
  destruct (Buffered.processLine JSON_parse l) as [log v].
  rewrite all_yields_do_all.
  destruct (ToBoolean v) eqn:Hv; [|exact IH].
  unfold yield. cbn [all_yields]. now rewrite Hv, IH.
Qed.

Lemma buffered_read_loop_truthy (b : body) :
  forall buffer,
    all_yields ToBoolean (Buffered.read_loop JSON_parse buffer b) = true.
Proof.
  induction b as [| reason | value rest IH]; intros buffer;
    cbn [Buffered.read_loop].
  - unfold Buffered.flush. destruct (nonempty (trim buffer)); [|reflexivity].
    now apply buffered_for_of_truthy.
  - reflexivity.
  - apply buffered_for_of_truthy, IH.
Qed.

Lemma buffered_for_of_abandon_silent (lines : list jsstring) (k : gen) :
  abandon_silent k = true ->
  abandon_silent (Buffered.for_of JSON_parse lines k) = true.
Proof.
  intros Hk. induction lines as [|l lines IH]; [exact Hk|].
  cbn [Buffered.for_of].
  destruct (Buffered.processLine JSON_parse l) as [log v].
  rewrite abandon_silent_do_all.
  destruct (ToBoolean v); [|exact IH].
  unfold yield. cbn [abandon_silent yield_free]. now rewrite IH.
Qed.

Lemma buffered_read_loop_abandon_silent (b : body) :
  forall buffer,
    abandon_silent (Buffered.read_loop JSON_parse buffer b) = true.
Proof.
  induction b as [| reason | value rest IH]; intros buffer;
    cbn [Buffered.read_loop].
  - unfold Buffered.flush. destruct (nonempty (trim buffer)); [|reflexivity].
    now apply buffered_for_of_abandon_silent.
  - reflexivity.
  - apply buffered_for_of_abandon_silent, IH.
Qed.

Lemma plain_for_of_abandon_silent (lines : list jsstring) (k : gen) :
  abandon_silent k = true ->
  abandon_silent (Plain.for_of JSON_parse lines k) = true.
Proof.
  intros Hk. induction lines as [|l lines IH]; [exact Hk|].
  cbn [Plain.for_of].
  destruct (startsWith l (lit "data: ")); [|exact IH].
  destruct (JS.eqb _ _); [reflexivity|].
  destruct (JSON_parse _); [|exact IH].
  unfold yield. cbn [abandon_silent yield_free]. now rewrite IH.
Qed.

Lemma plain_read_loop_abandon_silent (b : body) :
  abandon_silent (Plain.read_loop JSON_parse b) = true.
Proof.
  induction b as [| reason | value rest IH]; cbn [Plain.read_loop];
    try reflexivity.
  now apply plain_for_of_abandon_silent.
Qed.

End Received.

(** X4.  Whatever the response and its body and whatever the consumer
    does, every value the buffered client yields is truthy: a payload
    that parses to [null], [false], [0] or the empty string is never
    delivered. *)
Theorem buffered_yields_only_truthy
        (JSON_parse : jsstring -> option json)
        (JSON_stringify : json -> jsstring)
        (messages : list chat_message) (o : options)
        (f : fetched) (c : consumer) :
  Forall (fun v => ToBoolean v = true)
         (yields (fst (run c (Buffered.sendMessageStream
                                JSON_parse JSON_stringify messages o f)))).
Proof.
  apply run_all_yields. unfold Buffered.sendMessageStream. cbn [all_yields].
  destruct f as [reason | response]; [reflexivity|].
  destruct (negb (ok response)); [reflexivity|].
  destruct (body_stream response) as [b|]; [|reflexivity].
  cbn [all_yields]. apply all_yields_try_finally, buffered_read_loop_truthy.
Qed.

(** X5.  A consumer that leaves the loop at the value number [n] (counted
    from 0) has received exactly the first [n + 1] values that a full run
    over the same response delivers (all of them when there are fewer):
    leaving never skips, repeats or adds a value.  This holds for both
    copies of the stream client. *)
Theorem early_exit_receives_a_prefix
        (JSON_parse : jsstring -> option json)
        (JSON_stringify : json -> jsstring)
        (messages : list chat_message) (o : options)
        (f : fetched) (n : nat) :
  yields (fst (run (BreakAt n)
                   (Buffered.sendMessageStream JSON_parse JSON_stringify
                                               messages o f)))
  = firstn (S n)
      (yields (fst (run Drain
                        (Buffered.sendMessageStream JSON_parse JSON_stringify
                                                    messages o f))))
  /\ yields (fst (run (BreakAt n)
                      (Plain.sendMessageStream JSON_parse JSON_stringify
                                               messages o f)))
     = firstn (S n)
         (yields (fst (run Drain
                           (Plain.sendMessageStream JSON_parse JSON_stringify
                                                    messages o f)))).
Proof.
  split; cbn [run]; apply break_at_prefix.
  - unfold Buffered.sendMessageStream. cbn [abandon_silent].
    destruct f as [reason | response]; [reflexivity|].
    destruct (negb (ok response)); [reflexivity|].
    destruct (body_stream response) as [b|]; [|reflexivity].
    cbn [abandon_silent].
    apply abandon_silent_try_finally, buffered_read_loop_abandon_silent.
  - unfold Plain.sendMessageStream. cbn [abandon_silent].
    destruct f as [reason | response]; [reflexivity|].
    destruct (negb (ok response)); [reflexivity|].
    destruct (body_stream response) as [b|]; [|reflexivity].
    cbn [abandon_silent]. apply plain_read_loop_abandon_silent.
Qed.

(* ------------------------------------------------------------------ *)
(** * Lines: white space, falsy payloads, the terminator *)

Section WhiteSpace.

Lemma trimEnd_blank (w : jsstring) : blank w = true -> trimEnd w = [].
Proof.
  induction w as [|c w IH]; [reflexivity|].
  cbn [blank forallb]. intros H. apply andb_prop in H. destruct H as [Hc Hw].
  cbn [trimEnd]. unfold blank in IH. now rewrite (IH Hw), Hc.
Qed.

Lemma trimEnd_blank_suffix (l w : jsstring) :
  blank w = true -> trimEnd (l ++ w) = trimEnd l.
Proof.
  intros Hw. induction l as [|c l IH].
  - now apply trimEnd_blank.
  - cbn [app trimEnd]. now rewrite IH.
Qed.

Lemma trimEnd_blank_prefix_nil (w x : jsstring) :
  blank w = true -> trimEnd x = [] -> trimEnd (w ++ x) = [].
Proof.
  intros Hw Hx. induction w as [|c w IH]; [exact Hx|].
  cbn [blank forallb] in Hw. apply andb_prop in Hw. destruct Hw as [Hc Hw].
  cbn [app trimEnd]. unfold blank in IH. now rewrite (IH Hw), Hc.
Qed.

Lemma trimStart_blank_prefix (w y : jsstring) :
  blank w = true -> trimStart (w ++ y) = trimStart y.
Proof.
  induction w as [|c w IH]; [reflexivity|].
  cbn [blank forallb]. intros H. apply andb_prop in H. destruct H as [Hc Hw].
  cbn [app trimStart]. rewrite Hc. now apply IH.
Qed.

(** White space around a line does not change what [trim] makes of it. *)
Lemma trim_padding (w1 l w2 : jsstring) :
  blank w1 = true -> blank w2 = true -> trim (w1 ++ l ++ w2) = trim l.
Proof.
  intros H1 H2. unfold trim. rewrite app_assoc.
  rewrite (trimEnd_blank_suffix (w1 ++ l) w2 H2).
  destruct (trimEnd l) as [|x r] eqn:E.
  - now rewrite (trimEnd_blank_prefix_nil w1 l H1 E).
  - rewrite trimEnd_app by now rewrite E.
    rewrite E. now apply trimStart_blank_prefix.
Qed.

Lemma blank_not_data (l : jsstring) :
  blank l = true -> startsWith l (lit "data: ") = false.
Proof.
  rewrite prefix_units. destruct l as [|c l]; [reflexivity|].
  cbn [blank forallb startsWith]. intros H.
  apply andb_prop in H. destruct H as [Hc _].
  destruct (N.eqb 100 c) eqn:E; [|reflexivity].
  apply N.eqb_eq in E. subst c. discriminate.
Qed.

End WhiteSpace.

(** X6.  A line made of white space only (an empty line, a lone carriage
    return, spaces) produces nothing in either copy of the stream client:
    no value, no diagnostic, and the next line is decoded as if it had not
    been there. *)
Theorem blank_line_is_a_separator
        (JSON_parse : jsstring -> option json)
        (l : jsstring) (lines : list jsstring) (k : gen) :
  blank l = true ->
  Buffered.for_of JSON_parse (l :: lines) k = Buffered.for_of JSON_parse lines k
  /\ Plain.for_of JSON_parse (l :: lines) k = Plain.for_of JSON_parse lines k.
Proof.
  intros H. split.
  - cbn [Buffered.for_of]. unfold Buffered.processLine, trim.
    rewrite (trimEnd_blank l H). reflexivity.
  - cbn [Plain.for_of]. now rewrite (blank_not_data l H).
Qed.

Lemma blank_line_is_a_separator_witness :
  let l := [13%N; 32%N; 9%N] in
  let lines := [txt "data: {'text':'a'}"] in
  blank l = true
  /\ Buffered.for_of JSON.parse (l :: lines) (Done Completed)
     = Buffered.for_of JSON.parse lines (Done Completed)
  /\ Plain.for_of JSON.parse (l :: lines) (Done Completed)
     = Plain.for_of JSON.parse lines (Done Completed).
Proof.
  intros l lines.
  assert (H : blank l = true) by reflexivity.
  split; [exact H|].
  exact (blank_line_is_a_separator JSON.parse l lines (Done Completed) H).
Defined.

(** X7.  The buffered client decodes a line the same with or without
    white space around it: indentation before [data: ], or a carriage
    return (CRLF line ends) or spaces after the payload, change neither
    the value nor the diagnostic of the line. *)
Theorem buffered_line_padding_irrelevant
        (JSON_parse : jsstring -> option json)
        (before l after : jsstring) (lines : list jsstring) (k : gen) :
  blank before = true ->
  blank after = true ->
  Buffered.processLine JSON_parse (before ++ l ++ after)
  = Buffered.processLine JSON_parse l
  /\ Buffered.for_of JSON_parse ((before ++ l ++ after) :: lines) k
     = Buffered.for_of JSON_parse (l :: lines) k.
Proof.
  intros H1 H2.
  assert (Hp : Buffered.processLine JSON_parse (before ++ l ++ after)
               = Buffered.processLine JSON_parse l).
  { unfold Buffered.processLine. now rewrite (trim_padding before l after H1 H2). }
  split; [exact Hp|]. cbn [Buffered.for_of]. now rewrite Hp.
Qed.

Lemma buffered_line_padding_irrelevant_witness :
  let before := [32%N; 32%N] in
  let after := [13%N] in
  let l := txt "data: {'text':'a'}" in
  blank before = true
  /\ blank after = true
  /\ Buffered.processLine JSON.parse (before ++ l ++ after)
     = ([], JObject [(lit "text", JString (lit "a"))]).
Proof.
  intros before after l.
  assert (H1 : blank before = true) by reflexivity.
  assert (H2 : blank after = true) by reflexivity.
  split; [exact H1|]. split; [exact H2|].
  etransitivity.
  - exact (proj1 (buffered_line_padding_irrelevant JSON.parse before l after
                    [] (Done Completed) H1 H2)).
  - vm_compute. reflexivity.
Defined.

(** X8.  A data line whose payload is valid JSON for a falsy value
    ([0], [false], [null], the empty string) is dropped by the buffered
    client without a value and without a diagnostic, while the copy that
    decodes chunk by chunk yields the value. *)
Theorem falsy_payload_dropped_by_buffered_only
        (JSON_parse : jsstring -> option json)
        (p : jsstring) (v : json) (lines : list jsstring) (k : gen) :
  nonempty p = true ->
  trimEnd p = p ->
  JS.eqb p (lit "[DONE]") = false ->
  JSON_parse p = Some v ->
  ToBoolean v = false ->
  Buffered.for_of JSON_parse ((lit "data: " ++ p) :: lines) k
  = Buffered.for_of JSON_parse lines k
  /\ Plain.for_of JSON_parse ((lit "data: " ++ p) :: lines) k
     = yield v (Plain.for_of JSON_parse lines k).
Proof.
  intros Hne Htrim Hdone Hparse Hfalsy. split.
  - cbn [Buffered.for_of]. unfold Buffered.processLine.
    rewrite trim_data_line by now rewrite Htrim.
    rewrite Htrim, prefix_units.
    cbn [app nonempty negb startsWith slice skipn].
    rewrite !N.eqb_refl. cbn [andb].
    rewrite Hdone, Hparse. cbn [do_all]. now rewrite Hfalsy.
  - cbn [Plain.for_of]. rewrite prefix_units.
    cbn [app startsWith slice skipn].
    rewrite !N.eqb_refl. cbn [andb].
    now rewrite Hdone, Hparse.
Qed.

Lemma falsy_payload_dropped_by_buffered_only_witness :
  let p := lit "0" in
  let v := JNumber (Decimal false 0 0) in
  nonempty p = true
  /\ trimEnd p = p
  /\ JS.eqb p (lit "[DONE]") = false
  /\ JSON.parse p = Some v
  /\ ToBoolean v = false
  /\ Buffered.for_of JSON.parse [lit "data: " ++ p] (Done Completed)
     = Done Completed
  /\ Plain.for_of JSON.parse [lit "data: " ++ p] (Done Completed)
     = yield v (Done Completed).
Proof.
  intros p v.
  assert (H1 : nonempty p = true) by reflexivity.
  assert (H2 : trimEnd p = p) by reflexivity.
  assert (H3 : JS.eqb p (lit "[DONE]") = false) by reflexivity.
  assert (H4 : JSON.parse p = Some v) by (vm_compute; reflexivity).
  assert (H5 : ToBoolean v = false) by reflexivity.
  repeat (split; [assumption|]).
  exact (falsy_payload_dropped_by_buffered_only JSON.parse p v []
           (Done Completed) H1 H2 H3 H4 H5).
Defined.

(** X9.  In the copy that decodes chunk by chunk, a chunk one of whose
    lines is exactly [data: [DONE]] ends the stream there: the lines after
    it in the chunk and the whole rest of the body are never looked at, so
    that even a read that would fail after the terminator goes unnoticed. *)
Theorem plain_ignores_everything_after_terminator
        (JSON_parse : jsstring -> option json)
        (JSON_stringify : json -> jsstring)
        (messages : list chat_message) (o : options)
        (status : N) (js : outcome json)
        (value : jsstring) (before after : list jsstring)
        (rest rest' : body) (c : consumer) :
  split value = before ++ lit "data: [DONE]" :: after ->
  Plain.read_loop JSON_parse (Chunk value rest)
  = Plain.for_of JSON_parse (before ++ [lit "data: [DONE]"]) (Done Completed)
  /\ run c (Plain.sendMessageStream JSON_parse JSON_stringify messages o
              (Resolved (Response true status (Some (Chunk value rest)) js)))
     = run c (Plain.sendMessageStream JSON_parse JSON_stringify messages o
                (Resolved (Response true status (Some (Chunk value rest')) js))).
Proof.
  intros Hsplit.
  assert (Hstop : forall r,
             Plain.read_loop JSON_parse (Chunk value r)
             = Plain.for_of JSON_parse (before ++ [lit "data: [DONE]"])
                            (Done Completed)).
  { intros r. cbn [Plain.read_loop]. rewrite Hsplit.
    apply plain_stops_at_terminator. }
  split; [apply Hstop|].
  unfold Plain.sendMessageStream. cbn [ok negb body_stream].
  now rewrite (Hstop rest), (Hstop rest').
Qed.

Lemma plain_ignores_everything_after_terminator_witness :
  let value := line "data: {'text':'a'}" ++ line "data: [DONE]"
                 ++ line "data: {'text':'late'}" in
  let before := [txt "data: {'text':'a'}"] in
  let after := [txt "data: {'text':'late'}"; []] in
  split value = before ++ lit "data: [DONE]" :: after
  /\ run Drain (Plain.sendMessageStream JSON.parse JSON.stringify [] no_options
                  (Resolved (Response true 200
                               (Some (Chunk value (Broken (lit "reset"))))
                               (Throws (TransportError [])))))
     = run Drain (Plain.sendMessageStream JSON.parse JSON.stringify [] no_options
                    (Resolved (Response true 200
                                 (Some (Chunk value EndOfBody))
                                 (Throws (TransportError []))))).
Proof.
  intros value before after.
  assert (H : split value = before ++ lit "data: [DONE]" :: after)
    by (vm_compute; reflexivity).
  split; [exact H|].
  exact (proj2 (plain_ignores_everything_after_terminator
                  JSON.parse JSON.stringify [] no_options 200
                  (Throws (TransportError [])) value before after
                  (Broken (lit "reset")) EndOfBody Drain H)).
Defined.

(* ------------------------------------------------------------------ *)
(** * The chunk-by-chunk copy on chunks that end with their lines *)

Section PlainLines.

Variable JSON_parse : jsstring -> option json.

Lemma plain_for_of_app (l1 l2 : list jsstring) (k : gen) :
  Plain.for_of JSON_parse (l1 ++ l2) k
  = Plain.for_of JSON_parse l1 (Plain.for_of JSON_parse l2 k).
Proof.
  induction l1 as [|l l1 IH]; [reflexivity|].
  cbn [app Plain.for_of].
  destruct (startsWith l (lit "data: ")); [|exact IH].
  destruct (JS.eqb _ _); [reflexivity|].
  destruct (JSON_parse _); [|exact IH].
  now rewrite IH.
Qed.

Lemma split_lines_chunk (payloads : list jsstring) :
  Forall (fun p => no_line_feed p = true) payloads ->
  split (lines_chunk payloads)
  = map (fun p => lit "data: " ++ p) payloads ++ [[]].
Proof.
  unfold lines_chunk.
  induction 1 as [|p ps Hp _ IH]; [reflexivity|].
  cbn [flat_map map].
  replace (data_line p ++ flat_map data_line ps)
    with ((lit "data: " ++ p) ++ LF :: flat_map data_line ps)
    by (unfold data_line, nl; now rewrite <- !app_assoc).
  rewrite split_line_then.
  - now rewrite IH.
  - rewrite no_line_feed_app, Hp. reflexivity.
Qed.

Lemma plain_data_line (p : jsstring) (v : json)
      (rest : list jsstring) (k : gen) :
  JS.eqb p (lit "[DONE]") = false ->
  JSON_parse p = Some v ->
  Plain.for_of JSON_parse ((lit "data: " ++ p) :: rest) k
  = yield v (Plain.for_of JSON_parse rest k).
Proof.
  intros Hdone Hparse. cbn [Plain.for_of]. rewrite prefix_units.
  cbn [app startsWith slice skipn]. rewrite !N.eqb_refl. cbn [andb].
  now rewrite Hdone, Hparse.
Qed.

Lemma plain_for_of_data_lines (lines : list (jsstring * json)) (k : gen) :
  Forall (fun l => plain_decodes JSON_parse (fst l) (snd l)) lines ->
  Plain.for_of JSON_parse (map (fun l => lit "data: " ++ fst l) lines) k
  = yield_all (map snd lines) k.
Proof.
  induction 1 as [|[p v] lines Hd _ IH]; [reflexivity|].
  cbn [fst snd] in Hd. destruct Hd as (_ & Hdone & Hparse).
  cbn [map fst snd]. rewrite (plain_data_line p v _ k Hdone Hparse), IH.
  reflexivity.
Qed.

Lemma yield_all_app (vs ws : list json) (k : gen) :
  yield_all (vs ++ ws) k = yield_all vs (yield_all ws k).
Proof. unfold yield_all. apply fold_right_app. Qed.

Lemma drain_yield_all (vs : list json) (k : gen) :
  drain (yield_all vs k) = (map Yielded vs ++ fst (drain k), snd (drain k)).
Proof.
  induction vs as [|v vs IH].
  { change (yield_all [] k) with k. now destruct (drain k). }
  change (yield_all (v :: vs) k) with (Yield v (yield_all vs k) (Done Abandoned)).
  rewrite drain_yield, IH. reflexivity.
Qed.

Lemma plain_read_loop_line_chunks
      (groups : list (list (jsstring * json))) (tail : body) :
  Forall (Forall (fun l => plain_decodes JSON_parse (fst l) (snd l))) groups ->
  Plain.read_loop JSON_parse
    (body_of (map (fun g => lines_chunk (map fst g)) groups) tail)
  = yield_all (map snd (List.concat groups)) (Plain.read_loop JSON_parse tail).
Proof.
  induction 1 as [|g groups Hg _ IH]; [reflexivity|].
  cbn [map body_of Plain.read_loop List.concat].
  rewrite split_lines_chunk.
  - rewrite map_map, plain_for_of_app, (plain_for_of_data_lines g _ Hg).
    rewrite map_app, yield_all_app. cbn [Plain.for_of].
    rewrite prefix_units. cbn [startsWith]. now rewrite IH.
  - apply Forall_map. eapply Forall_impl; [|exact Hg].
    intros l H. apply H.
Qed.

End PlainLines.

(** X10.  When every chunk of the body holds whole data lines only (each
    ended by its line feed) and the terminator line comes in a chunk of its
    own, the copy that decodes chunk by chunk yields the values of all the
    lines in order, falsy ones included, and completes at the terminator
    without reading what follows; it never releases the reader. *)
Theorem plain_decodes_line_aligned_chunks
        (JSON_parse : jsstring -> option json)
        (JSON_stringify : json -> jsstring)
        (messages : list chat_message) (o : options)
        (status : N) (js : outcome json)
        (groups : list (list (jsstring * json))) (rest : body) :
  Forall (Forall (fun l => plain_decodes JSON_parse (fst l) (snd l))) groups ->
  drain (Plain.sendMessageStream JSON_parse JSON_stringify messages o
           (Resolved (Response true status
              (Some (body_of (map (fun g => lines_chunk (map fst g)) groups)
                             (Chunk (line "data: [DONE]") rest))) js)))
  = (Effect (Fetch CHAT_STREAM (JSON_stringify (chat_request messages o)))
       :: Effect GetReader
       :: map Yielded (map snd (List.concat groups)),
     Completed).
Proof.
  intros H. unfold Plain.sendMessageStream. cbn [ok negb body_stream].
  rewrite !drain_do, (plain_read_loop_line_chunks JSON_parse groups _ H).
  rewrite drain_yield_all.
  change (Plain.read_loop JSON_parse (Chunk (line "data: [DONE]") rest))
    with (Done Completed).
  cbn [drain fst snd]. now rewrite app_nil_r.
Qed.

Lemma plain_decodes_line_aligned_chunks_witness :
  let a := (txt "{'text':'a'}", JObject [(lit "text", JString (lit "a"))]) in
  let zero := (lit "0", JNumber (Decimal false 0 0)) in
  let b := (txt "{'text':'b'}", JObject [(lit "text", JString (lit "b"))]) in
  let groups := [[a; zero]; [b]] in
  Forall (Forall (fun l => plain_decodes JSON.parse (fst l) (snd l))) groups
  /\ yields (fst (drain (Plain.sendMessageStream JSON.parse JSON.stringify []
                           no_options
                           (Resolved (Response true 200
                              (Some (body_of
                                       (map (fun g => lines_chunk (map fst g))
                                            groups)
                                       (Chunk (line "data: [DONE]")
                                              (Broken (lit "reset")))))
                              (Throws (TransportError [])))))))
     = [snd a; snd zero; snd b].
Proof.
  intros a zero b groups.
  assert (H : Forall (Forall (fun l => plain_decodes JSON.parse (fst l) (snd l)))
                     groups)
    by (repeat constructor; vm_compute; reflexivity).
  split; [exact H|].
  rewrite (plain_decodes_line_aligned_chunks JSON.parse JSON.stringify []
             no_options 200 (Throws (TransportError [])) groups
             (Broken (lit "reset")) H).
  reflexivity.
Defined.

(* ------------------------------------------------------------------ *)
(** * Failures before the first chunk *)

(** X11.  A response with a non-success status makes [sendMessage] and
    both copies of [sendMessageStream] throw the HTTP error carrying the
    status once the request is made: no reader is taken and no value is
    yielded, whatever the consumer does; [sendMessage] does not read the
    JSON of the response. *)
Theorem http_error_before_streaming
        (JSON_parse : jsstring -> option json)
        (JSON_stringify : json -> jsstring)
        (messages : list chat_message) (o : options)
        (response : Http.response) (c : consumer) :
  ok response = false ->
  run c (Buffered.sendMessageStream JSON_parse JSON_stringify messages o
           (Resolved response))
  = ([Effect (Fetch CHAT_STREAM (JSON_stringify (chat_request messages o)))],
     Threw (HttpError (status response)))
  /\ run c (Plain.sendMessageStream JSON_parse JSON_stringify messages o
              (Resolved response))
     = ([Effect (Fetch CHAT_STREAM (JSON_stringify (chat_request messages o)))],
        Threw (HttpError (status response)))
  /\ sendMessage JSON_stringify messages o (Resolved response)
     = ([Fetch CHAT (JSON_stringify (chat_request messages o))],
        Throws (HttpError (status response))).
Proof.
  intros H.
  unfold Buffered.sendMessageStream, Plain.sendMessageStream, sendMessage.
  rewrite H. destruct c; repeat split; reflexivity.
Qed.

Lemma http_error_before_streaming_witness :
  let response :=
    Response false 503 (Some (Chunk (line "data: {'text':'a'}") EndOfBody))
             (Returns (JObject [(lit "detail", JString (lit "busy"))])) in
  ok response = false
  /\ run Drain (Buffered.sendMessageStream JSON.parse JSON.stringify []
                  no_options (Resolved response))
     = ([Effect (Fetch CHAT_STREAM
                   (JSON.stringify (chat_request [] no_options)))],
        Threw (HttpError 503))
  /\ snd (sendMessage JSON.stringify [] no_options (Resolved response))
     = Throws (HttpError 503).
Proof.
  intros response.
  assert (H : ok response = false) by reflexivity.
  destruct (http_error_before_streaming JSON.parse JSON.stringify []
              no_options response Drain H) as (Hb & _ & Hs).
  split; [exact H|]. split; [exact Hb|]. now rewrite Hs.
Defined.

(** X12.  A successful response without a body: the buffered client
    throws its own error ('Response body is not readable'), the copy that
    decodes chunk by chunk ends normally and silently, as an empty stream
    would; neither takes a reader nor yields. *)
Theorem missing_body_throws_or_ends
        (JSON_parse : jsstring -> option json)
        (JSON_stringify : json -> jsstring)
        (messages : list chat_message) (o : options)
        (response : Http.response) (c : consumer) :
  ok response = true ->
  body_stream response = None ->
  run c (Buffered.sendMessageStream JSON_parse JSON_stringify messages o
           (Resolved response))
  = ([Effect (Fetch CHAT_STREAM (JSON_stringify (chat_request messages o)))],
     Threw BodyNotReadable)
  /\ run c (Plain.sendMessageStream JSON_parse JSON_stringify messages o
              (Resolved response))
     = ([Effect (Fetch CHAT_STREAM (JSON_stringify (chat_request messages o)))],
        Completed).
Proof.
  intros Hok Hbody.
  unfold Buffered.sendMessageStream, Plain.sendMessageStream.
  rewrite Hok, Hbody. destruct c; split; reflexivity.
Qed.

Lemma missing_body_throws_or_ends_witness :
  let response := Response true 204 None (Throws (TransportError [])) in
  ok response = true
  /\ body_stream response = None
  /\ run (BreakAt 0)
         (Buffered.sendMessageStream JSON.parse JSON.stringify [] no_options
            (Resolved response))
     = ([Effect (Fetch CHAT_STREAM
                   (JSON.stringify (chat_request [] no_options)))],
        Threw BodyNotReadable).
Proof.
  intros response.
  assert (H1 : ok response = true) by reflexivity.
  assert (H2 : body_stream response = None) by reflexivity.
  split; [exact H1|]. split; [exact H2|].
  exact (proj1 (missing_body_throws_or_ends JSON.parse JSON.stringify []
                  no_options response (BreakAt 0) H1 H2)).
Defined.

(* ------------------------------------------------------------------ *)
(** * The WebSocket client: which events reach the callbacks *)

Section Handlers.

Variable JSON_parse : jsstring -> option json.

Lemma onmessage_at_most_one_callback (text : jsstring) :
  List.length (callbacks (WebSocket.onmessage JSON_parse text)) <= 1.
Proof.
  unfold WebSocket.onmessage.
  destruct (JSON_parse text) as [data|]; [|cbn; lia].
  destruct (get data (lit "type")) as [|type]; [cbn; lia|].
  destruct (is_string type (lit "token")).
  { destruct (get data (lit "token")); cbn; lia. }
  destruct (is_string type (lit "complete")); [cbn; lia|].
  destruct (is_string type (lit "error")); [|cbn; lia].
  destruct (get data (lit "error")); cbn; lia.
Qed.

Lemma handler_callbacks_bound (ev : WebSocket.socket_event) :
  List.length (callbacks (WebSocket.createWebSocketChat JSON_parse ev))
  <= (if carries_news ev then 1 else 0).
Proof.
  destruct ev as [| data | |]; cbn [WebSocket.createWebSocketChat carries_news].
  - cbn. lia.
  - apply onmessage_at_most_one_callback.
  - cbn. lia.
  - cbn. lia.
Qed.

Lemma callbacks_app (l l' : list WebSocket.action) :
  callbacks (l ++ l') = callbacks l ++ callbacks l'.
Proof. apply filter_app. Qed.

End Handlers.

(** X13.  The message handler calls one of the three callbacks only for a
    message that parses to an object whose [type] is the string [token],
    [complete] or [error].  A text that is not JSON, and the JSON [null],
    are logged with [console.error] and reach no callback.  A [token]
    message is passed on with whatever its [token] property is,
    [undefined] when the property is missing; likewise [error]. *)
Theorem callback_needs_typed_object
        (JSON_parse : jsstring -> option json) (text : jsstring) :
  (callbacks (WebSocket.onmessage JSON_parse text) <> [] ->
   exists fields,
     JSON_parse text = Some (JObject fields)
     /\ (is_string (lookup (lit "type") fields) (lit "token")
         || is_string (lookup (lit "type") fields) (lit "complete")
         || is_string (lookup (lit "type") fields) (lit "error")) = true)
  /\ (JSON_parse text = None \/ JSON_parse text = Some JNull ->
      WebSocket.onmessage JSON_parse text = [WebSocket.ConsoleError])
  /\ (forall fields,
         JSON_parse text = Some (JObject fields) ->
         is_string (lookup (lit "type") fields) (lit "token") = true ->
         WebSocket.onmessage JSON_parse text
         = [WebSocket.CallOnMessage (lookup (lit "token") fields)])
  /\ (forall fields,
         JSON_parse text = Some (JObject fields) ->
         is_string (lookup (lit "type") fields) (lit "token") = false ->
         is_string (lookup (lit "type") fields) (lit "complete") = false ->
         is_string (lookup (lit "type") fields) (lit "error") = true ->
         WebSocket.onmessage JSON_parse text
         = [WebSocket.CallOnError (lookup (lit "error") fields)]).
Proof.
  unfold WebSocket.onmessage. repeat split.
  - destruct (JSON_parse text) as [data|]; [|intros H; now destruct H].
    destruct data as [| b | d | s | xs | fields];
      try (intros H; now destruct H).
    intros H. exists fields. split; [reflexivity|].
    cbn [get] in H.
    destruct (is_string (lookup (lit "type") fields) (lit "token"));
      [reflexivity|].
    destruct (is_string (lookup (lit "type") fields) (lit "complete"));
      [reflexivity|].
    destruct (is_string (lookup (lit "type") fields) (lit "error"));
      [reflexivity|].
    now destruct H.
  - intros [H | H]; now rewrite H.
  - intros fields Hp Ht. rewrite Hp. cbn [get]. now rewrite Ht.
  - intros fields Hp Ht Hc He. rewrite Hp. cbn [get]. now rewrite Ht, Hc, He.
Qed.

Lemma callback_needs_typed_object_witness :
  let text := txt "{'type':'token'}" in
  let fields := [(lit "type", JString (lit "token"))] in
  JSON.parse text = Some (JObject fields)
  /\ is_string (lookup (lit "type") fields) (lit "token") = true
  /\ WebSocket.onmessage JSON.parse text = [WebSocket.CallOnMessage undefined]
  /\ JSON.parse (lit "null") = Some JNull
  /\ WebSocket.onmessage JSON.parse (lit "null") = [WebSocket.ConsoleError].
Proof.
  intros text fields.
  assert (H1 : JSON.parse text = Some (JObject fields))
    by (vm_compute; reflexivity).
  assert (H2 : is_string (lookup (lit "type") fields) (lit "token") = true)
    by reflexivity.
  assert (H3 : JSON.parse (lit "null") = Some JNull)
    by (vm_compute; reflexivity).
  split; [exact H1|]. split; [exact H2|]. split; [|split; [exact H3|]].
  - exact (proj1 (proj2 (proj2 (callback_needs_typed_object JSON.parse text)))
             fields H1 H2).
  - exact (proj1 (proj2 (callback_needs_typed_object JSON.parse (lit "null")))
             (or_intror H3)).
Defined.

(** X14.  Over the events of a connection, the callbacks called are those
    caused by its message and error events, at most one each: opening and
    closing the socket, an unexpected close included, reach no callback. *)
Theorem callbacks_come_from_messages_and_errors
        (JSON_parse : jsstring -> option json)
        (evs : list WebSocket.socket_event) :
  callbacks (WebSocket.dispatch JSON_parse evs)
  = callbacks (WebSocket.dispatch JSON_parse (filter carries_news evs))
  /\ List.length (callbacks (WebSocket.dispatch JSON_parse evs))
     <= List.length (filter carries_news evs).
Proof.
  unfold WebSocket.dispatch. induction evs as [|ev evs [IHeq IHle]].
  - split; [reflexivity | cbn; lia].
  - cbn [flat_map filter]. rewrite callbacks_app, length_app.
    pose proof (handler_callbacks_bound JSON_parse ev) as Hb.
    destruct (carries_news ev) eqn:E.
    + cbn [flat_map List.length]. split.
      * now rewrite callbacks_app, IHeq.
      * lia.
    + destruct (callbacks (WebSocket.createWebSocketChat JSON_parse ev))
        as [|x l]; [|cbn in Hb; lia].
      split; [exact IHeq | cbn; lia].
Qed.

(** X15.  Successive calls of [sendWebSocketMessage] on one socket never
    change its state.  On an open socket every call returns and the frames
    are handed to the socket in the order of the calls, after those sent
    before; on a socket in any other state every call throws and nothing
    is ever sent. *)
Theorem successive_sends
        (JSON_stringify : json -> jsstring)
        (ws : WebSocket.websocket) (calls : list (list chat_message)) :
  WebSocket.readyState (snd (send_all JSON_stringify ws calls))
  = WebSocket.readyState ws
  /\ (WebSocket.readyState ws = WebSocket.OPEN ->
      send_all JSON_stringify ws calls
      = (map (fun _ => Returns tt) calls,
         WebSocket.Socket WebSocket.OPEN
           (WebSocket.sent ws
              ++ map (fun m => JSON_stringify (WebSocket.chat_frame m)) calls)))
  /\ (WebSocket.readyState ws <> WebSocket.OPEN ->
      send_all JSON_stringify ws calls
      = (map (fun _ => Throws NotConnected) calls, ws)).
Proof.
  split; [|split].
  - revert ws. induction calls as [|m calls IH]; intros ws; [reflexivity|].
    cbn [send_all]. unfold WebSocket.sendWebSocketMessage.
    destruct (WebSocket.readyState ws) eqn:E;
      match goal with
      | |- context [send_all _ ?w calls] =>
          specialize (IH w); destruct (send_all JSON_stringify w calls)
      end; cbn [snd] in *; rewrite IH; cbn; congruence.
  - revert ws. induction calls as [|m calls IH]; intros ws Hopen.
    + cbn. rewrite app_nil_r. destruct ws as [st sn]. cbn in *. now subst st.
    + cbn [send_all]. unfold WebSocket.sendWebSocketMessage. rewrite Hopen.
      rewrite IH by reflexivity. cbn [map WebSocket.sent].
      now rewrite <- app_assoc.
  - intros Hclosed. induction calls as [|m calls IH]; [reflexivity|].
    cbn [send_all]. unfold WebSocket.sendWebSocketMessage.
    destruct (WebSocket.readyState ws) eqn:E; try congruence;
      rewrite IH; reflexivity.
Qed.

Lemma successive_sends_witness :
  let opened := WebSocket.Socket WebSocket.OPEN [lit "earlier"] in
  let closing := WebSocket.Socket WebSocket.CLOSING [lit "earlier"] in
  let calls := [[ChatMessage (lit "user") (lit "hi")]; []] in
  WebSocket.readyState opened = WebSocket.OPEN
  /\ WebSocket.readyState closing <> WebSocket.OPEN
  /\ WebSocket.sent (snd (send_all JSON.stringify opened calls))
     = [lit "earlier";
        txt "{'type':'chat','messages':[{'role':'user','content':'hi'}]}";
        txt "{'type':'chat','messages':[]}"]
  /\ send_all JSON.stringify closing calls
     = ([Throws NotConnected; Throws NotConnected], closing).
Proof.
  intros opened closing calls.
  assert (Ho : WebSocket.readyState opened = WebSocket.OPEN) by reflexivity.
  assert (Hc : WebSocket.readyState closing <> WebSocket.OPEN) by discriminate.
  destruct (successive_sends JSON.stringify opened calls) as (_ & Hopen & _).
  destruct (successive_sends JSON.stringify closing calls) as (_ & _ & Hclosed).
  split; [exact Ho|]. split; [exact Hc|]. split.
  - rewrite (Hopen Ho). vm_compute. reflexivity.
  - exact (Hclosed Hc).
Defined.

(** X16.  The request object always carries the messages in their order
    and the three generation parameters.  A parameter supplied with a
    truthy value is sent as it is, unchecked against any range; one that
    is not supplied gets its default. *)
Theorem truthy_parameter_sent_unchanged
        (messages : list chat_message) (o : options) (v : json) :
  ToBoolean v = true ->
  get (chat_request messages o) (lit "messages")
  = Read (Some (JArray (map message_json messages)))
  /\ get (chat_request messages (Options (Some v) (temperature o) (topP o)))
         (lit "max_tokens") = Read (Some v)
  /\ get (chat_request messages (Options (maxTokens o) (Some v) (topP o)))
         (lit "temperature") = Read (Some v)
  /\ get (chat_request messages (Options (maxTokens o) (temperature o) (Some v)))
         (lit "top_p") = Read (Some v)
  /\ chat_request messages no_options
     = JObject [(lit "messages", JArray (map message_json messages));
                (lit "max_tokens", number 1000 0);
                (lit "temperature", number 7 (-1));
                (lit "top_p", number 9 (-1))].
Proof.
  intros Hv.
  assert (Hor : forall d, or_else (Some v) d = v).
  { intros d. cbn [or_else]. now rewrite Hv. }
  unfold chat_request. cbn [maxTokens temperature topP].
  repeat split; cbn [get]; rewrite ?Hor; reflexivity.
Qed.

Lemma truthy_parameter_sent_unchanged_witness :
  let v := number 5 0 in
  ToBoolean v = true
  /\ get (chat_request [] (Options undefined (Some v) undefined))
         (lit "temperature") = Read (Some v).
Proof.
  intros v.
  assert (H : ToBoolean v = true) by (vm_compute; reflexivity).
  split; [exact H|].
  exact (proj1 (proj2 (proj2 (truthy_parameter_sent_unchanged [] no_options v H)))).
Defined.

(* ------------------------------------------------------------------ *)
(** * Where the two copies of the stream client agree *)

Section Agreement.

Lemma body_of_app (cs cs' : list jsstring) (ending : body) :
  body_of (cs ++ cs') ending = body_of cs (body_of cs' ending).
Proof. induction cs as [|c cs IH]; [reflexivity|]. cbn. now rewrite IH. Qed.

Lemma concat_lines_chunks (groups : list (list (jsstring * json))) :
  List.concat (map (fun g => lines_chunk (map fst g)) groups)
  = flat_map data_line (map fst (List.concat groups)).
Proof.
  induction groups as [|g groups IH]; [reflexivity|].
  cbn [map List.concat]. rewrite IH. unfold lines_chunk.
  now rewrite map_app, flat_map_app.
Qed.

Lemma yields_map_yielded (vs : list json) (t : list event) :
  yields (map Yielded vs ++ t) = vs ++ yields t.
Proof.
  induction vs as [|v vs IH]; [reflexivity|].
  cbn [map app]. now rewrite yields_yielded, IH.
Qed.

End Agreement.

(** X17.  On a valid stream whose payloads carry no white space at their
    end, cut so that every chunk holds whole lines and the terminator line
    is the last chunk, both copies of the stream client deliver the same
    values, those of the data lines in order. *)
Theorem copies_agree_on_line_aligned_chunks
        (JSON_parse : jsstring -> option json)
        (JSON_stringify : json -> jsstring)
        (messages : list chat_message) (o : options)
        (status : N) (js : outcome json)
        (groups : list (list (jsstring * json))) :
  Forall (Forall (fun l => decodes JSON_parse (fst l) (snd l)
                           /\ trimEnd (fst l) = fst l)) groups ->
  let chunks := map (fun g => lines_chunk (map fst g)) groups
                    ++ [line "data: [DONE]"] in
  let f := Resolved (Response true status
                              (Some (body_of chunks EndOfBody)) js) in
  yields (fst (drain (Buffered.sendMessageStream JSON_parse JSON_stringify
                                                 messages o f)))
  = map snd (List.concat groups)
  /\ yields (fst (drain (Plain.sendMessageStream JSON_parse JSON_stringify
                                                 messages o f)))
     = map snd (List.concat groups).
Proof.
  intros H chunks f. split.
  - assert (Hl : Forall (fun l => decodes JSON_parse (fst l) (snd l))
                        (List.concat groups)).
    { apply Forall_concat. eapply Forall_impl; [|exact H].
      intros g Hg. eapply Forall_impl; [|exact Hg]. intros l Hd. apply Hd. }
    assert (Hc : List.concat chunks
                 = valid_stream (map fst (List.concat groups))).
    { unfold chunks, valid_stream. rewrite concat_app, concat_lines_chunks.
      cbn [List.concat]. now rewrite app_nil_r. }
    unfold f, Buffered.sendMessageStream. cbn [ok negb body_stream].
    rewrite !drain_do. cbn [fst]. rewrite !yields_effect.
    rewrite (read_loop_valid_stream JSON_parse _ chunks Hl Hc).
    rewrite drain_yield_all_finally. cbn [fst].
    rewrite yields_map_yielded. cbn. now rewrite app_nil_r.
  - assert (Hp : Forall (Forall (fun l => plain_decodes JSON_parse
                                            (fst l) (snd l))) groups).
    { eapply Forall_impl; [|exact H].
      intros g Hg. eapply Forall_impl; [|exact Hg].
      intros l [(Hnl & _ & Hdone & Hparse & _) Htrim].
      rewrite Htrim in Hdone, Hparse. repeat split; assumption. }
    unfold f, chunks, Plain.sendMessageStream. cbn [ok negb body_stream].
    rewrite body_of_app, !drain_do. cbn [fst]. rewrite !yields_effect.
    rewrite (plain_read_loop_line_chunks JSON_parse groups _ Hp).
    rewrite drain_yield_all. cbn [fst body_of].
    change (Plain.read_loop JSON_parse (Chunk (line "data: [DONE]") EndOfBody))
      with (Done Completed).
    rewrite yields_map_yielded. cbn. now rewrite app_nil_r.
Qed.

Lemma copies_agree_on_line_aligned_chunks_witness :
  let a := (txt "{'text':'a'}", JObject [(lit "text", JString (lit "a"))]) in
  let b := (txt "{'text':'b'}", JObject [(lit "text", JString (lit "b"))]) in
  let c := (txt "{'text':'c'}", JObject [(lit "text", JString (lit "c"))]) in
  let groups := [[a; b]; []; [c]] in
  let chunks := map (fun g => lines_chunk (map fst g)) groups
                    ++ [line "data: [DONE]"] in
  Forall (Forall (fun l => decodes JSON.parse (fst l) (snd l)
                           /\ trimEnd (fst l) = fst l)) groups
  /\ yields (fst (drain (Buffered.sendMessageStream JSON.parse JSON.stringify
                           [] no_options (streamed chunks))))
     = [snd a; snd b; snd c]
  /\ yields (fst (drain (Plain.sendMessageStream JSON.parse JSON.stringify
                           [] no_options (streamed chunks))))
     = [snd a; snd b; snd c].
Proof.
  intros a b c groups chunks.
  assert (H : Forall (Forall (fun l => decodes JSON.parse (fst l) (snd l)
                                       /\ trimEnd (fst l) = fst l)) groups)
    by (repeat constructor; vm_compute; reflexivity).
  split; [exact H|].
  exact (copies_agree_on_line_aligned_chunks JSON.parse JSON.stringify []
           no_options 200
           (Throws (TransportError (lit "body stream is locked"))) groups H).
Defined.

(* ------------------------------------------------------------------ *)
(** * Where one copy of the stream client misses what the other does *)

(** C1.  The copy that decodes chunk by chunk, on one valid stream (a
    well-formed data line and the terminator line) cut in two ways: as a
    single chunk it yields the value of the line; cut inside the data line
    it yields nothing, the two halves of the line being decoded apart.
    Its result depends on the chunk boundaries. *)
Theorem plain_result_depends_on_chunking :
  let payload := txt "{'text':'Hello'}" in
  let v := JObject [(lit "text", JString (lit "Hello"))] in
  let whole := [valid_stream [payload]] in
  let cut := [txt "data: {'text':'He";
              txt "llo'}" ++ nl ++ line "data: [DONE]"] in
  let request :=
    Effect (Fetch CHAT_STREAM (JSON.stringify (chat_request [] no_options))) in
  decodes JSON.parse payload v
  /\ List.concat whole = valid_stream [payload]
  /\ List.concat cut = valid_stream [payload]
  /\ drain (Plain.sendMessageStream JSON.parse JSON.stringify [] no_options
              (streamed whole))
     = ([request; Effect GetReader; Yielded v], Completed)
  /\ drain (Plain.sendMessageStream JSON.parse JSON.stringify [] no_options
              (streamed cut))
     = ([request; Effect GetReader], Completed).
Proof.
  intros payload v whole cut request.
  split; [repeat split; vm_compute; reflexivity|].
  repeat split; vm_compute; reflexivity.
Qed.

(** C2.  The chunk [data: [DO] followed by the chunk [NE]] and a line feed
    does not complete either copy of the stream client.  The buffered
    client goes on reading after the terminator line: a data line that
    follows is yielded, and a read that fails after it ends the stream
    with that error, not with a completion.  The copy that decodes chunk
    by chunk does not see the terminator in its two halves and yields the
    line that follows as well. *)
Theorem split_terminator_does_not_complete :
  let late := JObject [(lit "text", JString (lit "late"))] in
  let c1 := lit "data: [DO" in
  let c2 := line "NE]" in
  let c3 := line "data: {'text':'late'}" in
  let request :=
    Effect (Fetch CHAT_STREAM (JSON.stringify (chat_request [] no_options))) in
  let failing :=
    Resolved (Response true 200
                (Some (Chunk c1 (Chunk c2 (Broken (lit "reset")))))
                (Throws (TransportError []))) in
  drain (Buffered.sendMessageStream JSON.parse JSON.stringify [] no_options
           (streamed [c1; c2; c3]))
  = ([request; Effect GetReader; Yielded late; Effect ReleaseLock], Completed)
  /\ drain (Buffered.sendMessageStream JSON.parse JSON.stringify [] no_options
              failing)
     = ([request; Effect GetReader; Effect ReleaseLock],
        Threw (TransportError (lit "reset")))
  /\ drain (Plain.sendMessageStream JSON.parse JSON.stringify [] no_options
              (streamed [c1; c2; c3]))
     = ([request; Effect GetReader; Yielded late], Completed).
Proof.
  intros late c1 c2 c3 request failing.
  repeat split; vm_compute; reflexivity.
Qed.

Lemma lock_free_never_acquires (g : gen) :
  lock_free g = true ->
  forall c, acquisitions (fst (run c g)) = 0.
Proof.
  assert (Hd : forall g0, lock_free g0 = true ->
                          acquisitions (fst (drain g0)) = 0).
  { intros g0. induction g0 as [d | e k IH | v k IHk a IHa]; simpl; intros H.
    - reflexivity.
    - apply andb_prop in H. destruct H as [He Hk].
      specialize (IH Hk). destruct (drain k) as [t d]. simpl in *.
      destruct e; try discriminate; exact IH.
    - apply andb_prop in H. destruct H as [Hk _].
      specialize (IHk Hk). destruct (drain k) as [t d]. exact IHk. }
  induction g as [d | e k IH | v k IHk a IHa]; simpl lock_free; intros H c.
  - destruct c; reflexivity.
  - apply andb_prop in H. destruct H as [He Hk].
    destruct c as [|n].
    + apply Hd. simpl. now rewrite He, Hk.
    + specialize (IH Hk (BreakAt n)). simpl in *.
      destruct (break_at n k) as [t d]. simpl in *.
      destruct e; try discriminate; exact IH.
  - apply andb_prop in H. destruct H as [Hk Ha].
    destruct c as [|[|m]].
    + apply Hd. simpl. now rewrite Hk, Ha.
    + specialize (Hd a Ha). simpl. destruct (drain a) as [t d]. exact Hd.
    + specialize (IHk Hk (BreakAt m)). simpl in *.
      destruct (break_at m k) as [t d]. exact IHk.
Qed.

(** C4.  The copy that decodes chunk by chunk, after a successful response
    with a readable body: whatever the body delivers (chunks, then its end
    or a failed read) and whatever the consumer does (runs to the end, or
    leaves at any value), it takes the reader once and never releases it.
    So it is on the body that ends normally, for the consumer that leaves
    at the first value, and on the read that fails. *)
Theorem plain_reader_never_released
        (JSON_parse : jsstring -> option json)
        (JSON_stringify : json -> jsstring)
        (messages : list chat_message) (o : options)
        (status : N) (js : outcome json)
        (b : body) (c : consumer) :
  (let t := fst (run c (Plain.sendMessageStream JSON_parse JSON_stringify
                          messages o
                          (Resolved (Response true status (Some b) js)))) in
   acquisitions t = 1 /\ releases t = 0)
  /\ (let request :=
        Effect (Fetch CHAT_STREAM
                  (JSON.stringify (chat_request [] no_options))) in
      let a := JObject [(lit "text", JString (lit "a"))] in
      let chunk := line "data: {'text':'a'}" in
      let client body c' :=
        run c' (Plain.sendMessageStream JSON.parse JSON.stringify [] no_options
                  (Resolved (Response true 200 (Some body)
                                      (Throws (TransportError [])))))  in
      client (Chunk chunk EndOfBody) Drain
      = ([request; Effect GetReader; Yielded a], Completed)
      /\ client (Chunk chunk EndOfBody) (BreakAt 0)
         = ([request; Effect GetReader; Yielded a], Abandoned)
      /\ client (Chunk chunk (Broken (lit "reset"))) Drain
         = ([request; Effect GetReader; Yielded a],
            Threw (TransportError (lit "reset")))).
Proof.
  split.
  - intros t.
    pose proof (lock_free_never_releases _
                  (plain_read_loop_lock_free JSON_parse b) c) as Hr.
    pose proof (lock_free_never_acquires _
                  (plain_read_loop_lock_free JSON_parse b) c) as Ha.
    subst t. unfold Plain.sendMessageStream. cbn [ok negb body_stream].
    destruct c as [|n]; cbn [run drain break_at] in *.
    + destruct (drain (Plain.read_loop JSON_parse b)) as [u d].
      cbn [fst] in *. unfold acquisitions, releases in *. cbn. now rewrite Ha, Hr.
    + destruct (break_at n (Plain.read_loop JSON_parse b)) as [u d].
      cbn [fst] in *. unfold acquisitions, releases in *. cbn. now rewrite Ha, Hr.
  - intros request a chunk client. repeat split; vm_compute; reflexivity.
Qed.

